(** * PAN-OS Upgrade Assurance integration: the directive compilers

    A shallow embedding of
    [Packs/PAN_OS_Upgrade_Services/Integrations/PAN_OS_Upgrade_Assurance/PAN_OS_Upgrade_Assurance.py]:
    [parse_session], [run_readiness_checks], [compare_snapshots] and
    [command_run_readiness_checks].

    The two compilers build the list that is handed to the external
    evaluator ([CheckFirewall.run_readiness_checks] on line 184,
    [SnapshotCompare.compare_snapshots] on line 285).  The embedding stops
    at that list: it is what the functions below return. *)

From Stdlib Require Import ZArith Ascii String List Lia.
From stdpp Require Import base option list strings gmap.

Local Open Scope string_scope.
Local Open Scope list_scope.

(** ** Python values *)

(** The values that occur in directives and in the dynamically typed
    arguments.  A [dict] is kept as the list of its items in insertion
    order. *)
#[warnings="-register-all"]
Inductive pyval : Type :=
| PNone
| PBool (b : bool)
| PInt (z : Z)
| PStr (s : string)
| PList (items : list pyval)
| PDict (items : list (string * pyval)).

(** [isinstance(v, int)]: [bool] is a subclass of [int] in Python. *)
Definition isinstance_int (v : pyval) : bool :=
  match v with
  | PInt _ | PBool _ => true
  | _ => false
  end.

(** The integer an [int] instance compares as ([True] is 1, [False] is 0). *)
Definition int_value (v : pyval) : Z :=
  match v with
  | PInt z => z
  | PBool true => 1
  | _ => 0
  end.

(** Truth value of an [Optional[str]] argument: [None] and the empty
    string are false. *)
Definition truthy (o : option string) : bool :=
  match o with
  | Some (String _ _) => true
  | _ => false
  end.

(** The value of an [Optional[str]] argument as it is stored in a directive. *)
Definition str_value (o : option string) : pyval :=
  match o with
  | Some s => PStr s
  | None => PNone
  end.

(** ** Exceptions *)

Inductive exn : Type :=
| ValueError (msg : string)
| KeyError (msg : string)
| TypeError (msg : string).

Inductive result (A : Type) : Type :=
| Ok (a : A)
| Raise (e : exn).
Arguments Ok {A} a.
Arguments Raise {A} e.

(** ** Lists of identifiers *)

(** [x in l] *)
Definition py_in (x : string) (l : list string) : bool := bool_decide (x ∈ l).

(** [l.remove(x)]: deletes the first occurrence; [None] stands for the
    [ValueError] Python raises when [x] does not occur. *)
Fixpoint list_remove_first (x : string) (l : list string) : option (list string) :=
  match l with
  | [] => None
  | y :: l' =>
      if decide (y = x) then Some l'
      else cons y <$> list_remove_first x l'
  end.

(** [s.split(sep)] for a separator of one character: one field per
    separator plus one, empty fields kept. *)
Fixpoint str_split (sep : ascii) (s : string) : list string :=
  match s with
  | EmptyString => [EmptyString]
  | String c s' =>
      if Ascii.eqb c sep then EmptyString :: str_split sep s'
      else match str_split sep s' with
           | f :: fs => String c f :: fs
           | [] => [String c EmptyString]
           end
  end.

(** Identifier carried by a directive: a bare string names itself, a
    parameterized directive is a dict with a single key. *)
Definition directive_name (d : pyval) : option string :=
  match d with
  | PStr s => Some s
  | PDict [(k, _)] => Some k
  | _ => None
  end.

Definition is_bare (x : string) (d : pyval) : bool :=
  match d with
  | PStr s => String.eqb s x
  | _ => false
  end.

Definition is_parameterized (x : string) (d : pyval) : bool :=
  match d with
  | PDict [(k, _)] => String.eqb k x
  | _ => false
  end.

Definition is_named (x : string) (d : pyval) : bool :=
  is_bare x d || is_parameterized x d.

Fixpoint count_if {A : Type} (f : A → bool) (l : list A) : nat :=
  match l with
  | [] => 0
  | a :: l' => (if f a then 1 else 0) + count_if f l'
  end.

(** ** The heap of list objects *)

(** Python lists are passed by reference.  A location names a list
    object; the heap holds the current contents of each. *)
Definition loc := positive.
Abbreviation heap := (gmap loc (list string)).

(** The contents behind an [Optional[List]] argument.  A Python reference
    is never dangling; a location that the heap does not hold reads as
    [None]. *)
Definition deref (h : heap) (r : option loc) : option (list string) :=
  r ≫= (h !!.).

(** ** parse_session (lines 52-58) *)

Definition parse_session (session_str : string) : result pyval :=
  match str_split "/" session_str with
  | [source; destination; port] =>
      Ok (PDict [("source", PStr source);
                 ("destination", PStr destination);
                 ("dest_port", PStr port)])
  | [] => Raise (ValueError "not enough values to unpack (expected 3, got 0)")
  | [_] => Raise (ValueError "not enough values to unpack (expected 3, got 1)")
  | [_; _] => Raise (ValueError "not enough values to unpack (expected 3, got 2)")
  | _ => Raise (ValueError "too many values to unpack (expected 3)")
  end.

(** ** compare_snapshots (lines 189-285) *)

Definition default_snapshot_list : list string :=
  ["nics"; "routes"; "license"; "arp_table"; "content_version";
   "session_stats"; "ip_sec_tunnels"].

(** [not snapshot_list]: [None] and the empty list are false. *)
Definition is_empty_arg (v : option (list string)) : bool :=
  match v with
  | Some (_ :: _) => false
  | _ => true
  end.

Definition when_in (x : string) (l : list string) (d : list pyval) : list pyval :=
  if py_in x l then d else [].

Definition session_stats_directive (session_stats_threshold : pyval) : pyval :=
  if isinstance_int session_stats_threshold
     && (0 <? int_value session_stats_threshold)%Z
  then
    PDict [("session_stats",
            PDict [("thresholds",
                    PList [PDict [("num-max", session_stats_threshold)];
                           PDict [("num-tcp", session_stats_threshold)]])])]
  else
    PDict [("session_stats",
            PDict [("thresholds",
                    PList [PDict [("num-max", PInt 10)];
                           PDict [("num-tcp", PInt 10)]])])].

(** The snapshots only reach the external [SnapshotCompare] object; the
    list argument is read, never written, so the heap is not returned.
    The result is [snapshot_comparisons], the argument of the evaluator
    call on line 285. *)
Definition compare_snapshots (left_snapshot right_snapshot : pyval)
    (snapshot_list : option loc) (session_stats_threshold : pyval)
    (h : heap) : list pyval :=
  let snapshot_list :=
    if is_empty_arg (deref h snapshot_list) then default_snapshot_list
    else default [] (deref h snapshot_list) in
  when_in "nics" snapshot_list
    [PDict [("nics", PDict [("count_change_threshold", PInt 10)])]]
  ++ when_in "routes" snapshot_list
    [PDict [("routes",
             PDict [("properties", PList [PStr "!flags"; PStr "!age"]);
                    ("count_change_threshold", PInt 10)])]]
  ++ when_in "license" snapshot_list
    [PDict [("license",
             PDict [("properties",
                     PList [PStr "!serial"; PStr "!issued"; PStr "!authcode"])])]]
  ++ when_in "arp_table" snapshot_list
    [PDict [("arp_table",
             PDict [("properties", PList [PStr "!ttl"]);
                    ("count_change_threshold", PInt 10)])]]
  ++ when_in "content_version" snapshot_list [PStr "content_version"]
  ++ when_in "session_stats" snapshot_list
    [session_stats_directive session_stats_threshold]
  ++ when_in "ip_sec_tunnels" snapshot_list
    [PDict [("ip_sec_tunnels", PDict [("properties", PList [PStr "state"])])]]
  ++ when_in "bgp_peers" snapshot_list
    [PDict [("bgp_peers", PDict [("properties", PList [PStr "status"])])]].

(** ** run_readiness_checks (lines 83-186) *)

(** The device behind a [FirewallProxy]: what [get_ha_configuration()]
    answers. *)
Record FirewallProxy : Type := { get_ha_configuration : gmap string string }.

(** The optional keyword arguments of [run_readiness_checks].  The two
    numeric ones are tested with [isinstance] by the source and stay
    dynamically typed. *)
Record readiness_args : Type := {
  min_content_version : option string;
  candidate_version : option string;
  dp_mp_clock_diff : pyval;
  ipsec_tunnel_status : option string;
  check_session_exists : option string;
  arp_entry_exists : option string
}.

(** The two local lists of the function body. *)
Record frame : Type := { check_list : list string; custom_checks : list pyval }.

(** Statements of the body: they update the frame and may raise; the
    frame reached when an exception is raised is kept, as the list
    object keeps the updates made before it. *)
Definition M (A : Type) : Type := frame → result A * frame.

#[local] Instance M_ret : MRet M := λ A a s, (Ok a, s).
#[local] Instance M_bind : MBind M := λ A B f m s,
  match m s with
  | (Ok a, s') => f a s'
  | (Raise e, s') => (Raise e, s')
  end.

Definition raise {A : Type} (e : exn) : M A := λ s, (Raise e, s).

Definition when (b : bool) (m : M ()) : M () := if b then m else mret ().

Definition check_list_contains (x : string) : M bool :=
  λ s, (Ok (py_in x (check_list s)), s).

Definition check_list_append (x : string) : M () :=
  λ s, (Ok (), {| check_list := check_list s ++ [x];
                  custom_checks := custom_checks s |}).

Definition check_list_remove (x : string) : M () :=
  λ s, match list_remove_first x (check_list s) with
       | Some l => (Ok (), {| check_list := l; custom_checks := custom_checks s |})
       | None => (Raise (ValueError "list.remove(x): x not in list"), s)
       end.

Definition custom_checks_append (d : pyval) : M () :=
  λ s, (Ok (), {| check_list := check_list s;
                  custom_checks := custom_checks s ++ [d] |}).

(** [check_list + custom_checks] *)
Definition check_config : M (list pyval) :=
  λ s, (Ok (map PStr (check_list s) ++ custom_checks s), s).

(** Lines 126-130. *)
Definition step_content_version (a : readiness_args) : M () :=
  has ← check_list_contains "content_version";
  when has
    (when (truthy (min_content_version a))
       (custom_checks_append
          (PDict [("content_version",
                   PDict [("version", str_value (min_content_version a))])]);;
        check_list_remove "content_version")).

(** Lines 132-139. *)
Definition step_free_disk_space (a : readiness_args) : M () :=
  if truthy (candidate_version a) then
    custom_checks_append
      (PDict [("free_disk_space",
               PDict [("image_version", str_value (candidate_version a))])])
  else check_list_append "free_disk_space".

(** Lines 141-148. *)
Definition step_planes_clock_sync (a : readiness_args) : M () :=
  has ← check_list_contains "planes_clock_sync";
  when has
    (when (isinstance_int (dp_mp_clock_diff a)
           && (0 <=? int_value (dp_mp_clock_diff a))%Z)
       (custom_checks_append
          (PDict [("planes_clock_sync",
                   PDict [("diff_threshold", dp_mp_clock_diff a)])]));;
     check_list_remove "planes_clock_sync").

(** Lines 150-157. *)
Definition step_ip_sec_tunnel_status (a : readiness_args) : M () :=
  has ← check_list_contains "ip_sec_tunnel_status";
  when has
    (when (truthy (ipsec_tunnel_status a))
       (custom_checks_append
          (PDict [("ip_sec_tunnel_status",
                   PDict [("tunnel_name", str_value (ipsec_tunnel_status a))])]));;
     check_list_remove "ip_sec_tunnel_status").

(** Lines 161-166: [parse_session] under [try], any [ValueError]
    replaced by the one that names the argument. *)
Definition try_parse_session (session_str : string) : M pyval :=
  match parse_session session_str with
  | Ok v => mret v
  | Raise (ValueError _) =>
      raise (ValueError
               (session_str +:+
                " is not a valid session string. Must be 'source/destination/port'."))
  | Raise e => raise e
  end.

(** Lines 159-170. *)
Definition step_session_exist (a : readiness_args) : M () :=
  has ← check_list_contains "session_exist";
  when has
    (match check_session_exists a with
     | Some (String _ _ as session_str) =>
         check_value ← try_parse_session session_str;
         custom_checks_append (PDict [("session_exist", check_value)])
     | _ => mret ()
     end;;
     check_list_remove "session_exist").

(** Lines 172-179. *)
Definition step_arp_entry_exists (a : readiness_args) : M () :=
  has ← check_list_contains "arp_entry_exists";
  when has
    (when (truthy (arp_entry_exists a))
       (custom_checks_append
          (PDict [("arp_entry_exist",
                   PDict [("ip", str_value (arp_entry_exists a))])]));;
     check_list_remove "arp_entry_exists").

(** Lines 122-181, from [custom_checks = []] to [check_config]. *)
Definition compile_checks (a : readiness_args) : M (list pyval) :=
  step_content_version a;;
  step_free_disk_space a;;
  step_planes_clock_sync a;;
  step_ip_sec_tunnel_status a;;
  step_session_exist a;;
  step_arp_entry_exists a;;
  check_config.

(** Lines 113-121: the default list, a new list object; line 120 is
    [ha_enabled]. *)
Definition ha_enabled (firewall : FirewallProxy) : bool :=
  bool_decide (get_ha_configuration firewall !! "enabled" = Some "yes").

Definition default_check_list (firewall : FirewallProxy) : list string :=
  ["panorama"; "ntp_sync"; "candidate_config"; "active_support"]
  ++ (if ha_enabled firewall then ["ha"] else []).

(** The whole function.  With a non-empty argument the body works on
    the caller's list object, and the heap returned holds what the body
    left in it, also when an exception ended the call.  With [None] or
    an empty list the body works on a new list that nobody else holds;
    the caller's heap is unchanged.  The result is [check_config], the
    argument of the evaluator call on line 184. *)
Definition run_readiness_checks (firewall : FirewallProxy)
    (check_list_arg : option loc) (a : readiness_args) (h : heap)
    : result (list pyval) * heap :=
  match check_list_arg, deref h check_list_arg with
  | Some r, Some (x :: l) =>
      let '(res, s) :=
        compile_checks a {| check_list := x :: l; custom_checks := [] |} in
      (res, <[r := check_list s]> h)
  | _, _ =>
      let '(res, _) :=
        compile_checks a {| check_list := default_check_list firewall;
                            custom_checks := [] |} in
      (res, h)
  end.

(** ** command_run_readiness_checks (lines 311-374) *)

(** Lines 340-342, 349-351 and 353-355: a user-facing name is replaced
    by the evaluator's, at the end of the list. *)
Definition rename_check (old new : string) (check_list : list string) : list string :=
  if py_in old check_list then
    default check_list (list_remove_first old check_list) ++ [new]
  else check_list.

(** ** Argument dicts *)

(** [demisto.args()] is a dict of strings.  It is kept as its items in
    insertion order, which is the order in which [**args] hands the
    keywords to the callee.  The keys of a dict are unique; a list that
    repeats a key reads as its first item. *)
Fixpoint args_get (k : string) (d : list (string * string)) : option string :=
  match d with
  | [] => None
  | (k', v) :: d' => if String.eqb k' k then Some v else args_get k d'
  end.

(** [del d[k]], once the key is known to be there or the source has
    tested for it. *)
Definition args_del (k : string) (d : list (string * string))
    : list (string * string) :=
  List.filter (λ kv, negb (String.eqb kv.1 k)) d.

#[global] Instance args_lookup : Lookup string string (list (string * string)) :=
  args_get.
#[global] Instance args_delete : Delete string (list (string * string)) :=
  args_del.
#[global] Instance args_dom : Dom (list (string * string)) (gset string) :=
  λ d, list_to_set (map fst d).

(** What binding the keywords of a call [f(..., **kwargs)] raises, for a
    function [f] that has no [**kwargs] of its own.  The keywords are
    taken in the order of the dict: one that names a parameter already
    given by position raises "got multiple values for argument", one
    that names no parameter raises "got an unexpected keyword argument";
    [keywords] are the parameters still free. *)
Fixpoint keyword_error (f : string) (given : list string) (keywords : gset string)
    (kwargs : list (string * string)) : option exn :=
  match kwargs with
  | [] => None
  | (k, _) :: rest =>
      if py_in k given then
        Some (TypeError (f +:+ "() got multiple values for argument '" +:+ k +:+ "'"))
      else if bool_decide (k ∈ keywords) then keyword_error f given keywords rest
      else
        Some (TypeError (f +:+ "() got an unexpected keyword argument '" +:+ k +:+ "'"))
  end.

Definition readiness_keywords : gset string :=
  {[ "min_content_version"; "candidate_version"; "ipsec_tunnel_status";
     "check_session_exists"; "arp_entry_exists" ]}.

Definition number_value (n : option Z) : pyval :=
  match n with
  | Some z => PInt z
  | None => PNone
  end.

Section Command.
(** The platform helpers of [CommonServerPython], which is not part of
    this repository. *)
Variable argToList : option string → list string.
Variable arg_to_number : option string → result (option Z).
Variable is_ip_valid : string → bool.

(** [firewall] is the object [get_firewall_object] returns for
    [args.get('firewall_serial')]; [args] is [demisto.args()].  The
    list [argToList] returns is a new object, which only this call
    holds.  The result is the [check_config] of the call on line 362.
    The call gives [firewall] and [check_list] by position and
    [dp_mp_clock_diff] by keyword, and [**args] the rest: a key that is
    no free keyword of [run_readiness_checks] raises [TypeError]
    ([check_list] and [dp_mp_clock_diff] were deleted on lines 338 and
    347). *)
Definition command_run_readiness_checks (firewall : FirewallProxy)
    (args : list (string * string)) : result (list pyval) :=
  match args !! "firewall_serial" with
  | None => Raise (KeyError "firewall_serial")
  | Some _ =>
      let args := delete "firewall_serial" args in
      let check_list := argToList (args !! "check_list") in
      let args := delete "check_list" args in
      let check_list := rename_check "dp_mp_clock_diff" "planes_clock_sync" check_list in
      match arg_to_number (args !! "dp_mp_clock_diff") with
      | Raise e => Raise e
      | Ok dp_mp_clock_diff =>
          let args := delete "dp_mp_clock_diff" args in
          let check_list := rename_check "ipsec_tunnel" "ip_sec_tunnel_status" check_list in
          let check_list := rename_check "arp" "arp_entry_exists" check_list in
          let invalid :=
            match args !! "arp_entry_exists" with
            | Some (String _ _ as arp_entry) =>
                if is_ip_valid arp_entry then None else Some arp_entry
            | _ => None
            end in
          match invalid with
          | Some arp_entry =>
              Raise (ValueError (arp_entry +:+ " is not a valid IPv4 address."))
          | None =>
              match keyword_error "run_readiness_checks" ["firewall"; "check_list"]
                      readiness_keywords args with
              | Some e => Raise e
              | None =>
                  (run_readiness_checks firewall (Some 1%positive)
                     {| min_content_version := args !! "min_content_version";
                        candidate_version := args !! "candidate_version";
                        dp_mp_clock_diff := number_value dp_mp_clock_diff;
                        ipsec_tunnel_status := args !! "ipsec_tunnel_status";
                        check_session_exists := args !! "check_session_exists";
                        arp_entry_exists := args !! "arp_entry_exists" |}
                     {[ 1%positive := check_list ]}).1
              end
          end
      end
  end.
End Command.

(** ** Instances of the platform helpers

    They serve to run the command on concrete arguments; every theorem
    about the command holds for arbitrary helpers. *)

(** A comma-separated argument; absent or empty gives the empty list. *)
Definition argToList_csv (arg : option string) : list string :=
  match arg with
  | Some (String _ _ as s) => str_split "," s
  | _ => []
  end.

Definition digit_of (c : ascii) : option Z :=
  let n := Z.of_nat (nat_of_ascii c) in
  if ((48 <=? n) && (n <=? 57))%Z then Some (n - 48)%Z else None.

Fixpoint decimal_value (s : string) (acc : Z) : option Z :=
  match s with
  | EmptyString => Some acc
  | String c s' =>
      match digit_of c with
      | Some d => decimal_value s' (10 * acc + d)%Z
      | None => None
      end
  end.

(** A decimal argument; absent or empty gives [None], anything that is
    not a number raises. *)
Definition arg_to_number_decimal (arg : option string) : result (option Z) :=
  match arg with
  | Some (String _ _ as s) =>
      match decimal_value s 0 with
      | Some z => Ok (Some z)
      | None => Raise (ValueError ("Invalid number: " +:+ s))
      end
  | _ => Ok None
  end.

(** Modelled from the spec: [is_ip_valid] belongs to the platform,
    outside the repository; the spec asks for "a syntactically valid
    IPv4 address", here four dot-separated decimal fields, each from 0
    to 255. *)
Definition is_ip_valid_dotted (s : string) : bool :=
  match str_split "." s with
  | [a; b; c; d] =>
      forallb (λ x, match x with
                    | EmptyString => false
                    | _ => match decimal_value x 0 with
                           | Some z => (z <=? 255)%Z
                           | None => false
                           end
                    end) [a; b; c; d]
  | _ => false
  end.

(** ** Closed forms *)

(** [l.remove(x)] where the source guards it with [x in l]; without the
    guard the list is left as it is. *)
Definition remove_first (x : string) (l : list string) : list string :=
  default l (list_remove_first x l).

(** Number of times an identifier occurs in a list. *)
Definition occurrences (x : string) (l : list string) : nat :=
  count_if (λ s, String.eqb s x) l.

(** The bare identifiers after lines 126-130 and after lines 132-139. *)
Definition after_content_version (a : readiness_args) (cl : list string) : list string :=
  if py_in "content_version" cl && truthy (min_content_version a)
  then remove_first "content_version" cl else cl.

Definition after_free_disk_space (a : readiness_args) (cl : list string) : list string :=
  if truthy (candidate_version a) then after_content_version a cl
  else after_content_version a cl ++ ["free_disk_space"].

Definition after_ip_sec_tunnel_status (a : readiness_args) (cl : list string) : list string :=
  remove_first "ip_sec_tunnel_status"
    (remove_first "planes_clock_sync" (after_free_disk_space a cl)).

(** The bare identifiers of [check_config]. *)
Definition bare_checks (a : readiness_args) (cl : list string) : list string :=
  remove_first "arp_entry_exists"
    (remove_first "session_exist" (after_ip_sec_tunnel_status a cl)).

Definition content_version_directive (a : readiness_args) : pyval :=
  PDict [("content_version", PDict [("version", str_value (min_content_version a))])].

Definition free_disk_space_directive (a : readiness_args) : pyval :=
  PDict [("free_disk_space", PDict [("image_version", str_value (candidate_version a))])].

Definition planes_clock_sync_directive (a : readiness_args) : pyval :=
  PDict [("planes_clock_sync", PDict [("diff_threshold", dp_mp_clock_diff a)])].

Definition ip_sec_tunnel_status_directive (a : readiness_args) : pyval :=
  PDict [("ip_sec_tunnel_status",
          PDict [("tunnel_name", str_value (ipsec_tunnel_status a))])].

Definition arp_entry_exist_directive (a : readiness_args) : pyval :=
  PDict [("arp_entry_exist", PDict [("ip", str_value (arp_entry_exists a))])].

Definition is_non_negative_int (v : pyval) : bool :=
  isinstance_int v && (0 <=? int_value v)%Z.

Definition is_positive_int (v : pyval) : bool :=
  isinstance_int v && (0 <? int_value v)%Z.

(** The parameterized directives appended before line 159. *)
Definition custom_before_session (a : readiness_args) (cl : list string) : list pyval :=
  (if py_in "content_version" cl && truthy (min_content_version a)
   then [content_version_directive a] else [])
  ++ (if truthy (candidate_version a) then [free_disk_space_directive a] else [])
  ++ (if py_in "planes_clock_sync" cl && is_non_negative_int (dp_mp_clock_diff a)
      then [planes_clock_sync_directive a] else [])
  ++ (if py_in "ip_sec_tunnel_status" cl && truthy (ipsec_tunnel_status a)
      then [ip_sec_tunnel_status_directive a] else []).

(** What lines 159-169 append, or the exception they raise. *)
Definition session_directive (a : readiness_args) (cl : list string) : result (list pyval) :=
  if py_in "session_exist" cl then
    match check_session_exists a with
    | Some (String _ _ as session_str) =>
        match parse_session session_str with
        | Ok check_value => Ok [PDict [("session_exist", check_value)]]
        | Raise _ =>
            Raise (ValueError
                     (session_str +:+
                      " is not a valid session string. Must be 'source/destination/port'."))
        end
    | _ => Ok []
    end
  else Ok [].

Definition custom_after_arp (a : readiness_args) (cl : list string) : list pyval :=
  if py_in "arp_entry_exists" cl && truthy (arp_entry_exists a)
  then [arp_entry_exist_directive a] else [].

(** [check_config] for a working list [cl], or the exception raised. *)
Definition directives (a : readiness_args) (cl : list string) : result (list pyval) :=
  match session_directive a cl with
  | Ok ds =>
      Ok (map PStr (bare_checks a cl)
          ++ custom_before_session a cl ++ ds ++ custom_after_arp a cl)
  | Raise e => Raise e
  end.

(** What the working list holds when the body ends, normally or by the
    exception of line 164. *)
Definition list_after_call (a : readiness_args) (cl : list string) : list string :=
  match session_directive a cl with
  | Ok _ => bare_checks a cl
  | Raise _ => after_ip_sec_tunnel_status a cl
  end.

(** The list the function works on: the caller's when it is not empty,
    the default list otherwise. *)
Definition working_list (firewall : FirewallProxy) (v : option (list string)) : list string :=
  if is_empty_arg v then default_check_list firewall else default [] v.

(** The order in which lines 217-283 test the snapshot list. *)
Definition canonical_order : list string :=
  ["nics"; "routes"; "license"; "arp_table"; "content_version";
   "session_stats"; "ip_sec_tunnels"; "bgp_peers"].

(** The list [compare_snapshots] tests: the caller's when it is not
    empty, the default list otherwise. *)
Definition snapshot_working_list (v : option (list string)) : list string :=
  if is_empty_arg v then default_snapshot_list else default [] v.

(** The [session_stats] directive with both thresholds at [t]. *)
Definition session_stats_with (t : pyval) : pyval :=
  PDict [("session_stats",
          PDict [("thresholds",
                  PList [PDict [("num-max", t)]; PDict [("num-tcp", t)]])])].

(** The check list of the command after lines 340-355. *)
Definition renamed_check_list (user_list : list string) : list string :=
  rename_check "arp" "arp_entry_exists"
    (rename_check "ipsec_tunnel" "ip_sec_tunnel_status"
       (rename_check "dp_mp_clock_diff" "planes_clock_sync" user_list)).

(** The keyword arguments of the call on line 362. *)
Definition keyword_args (args : list (string * string)) (n : option Z)
    : readiness_args :=
  {| min_content_version := args !! "min_content_version";
     candidate_version := args !! "candidate_version";
     dp_mp_clock_diff := number_value n;
     ipsec_tunnel_status := args !! "ipsec_tunnel_status";
     check_session_exists := args !! "check_session_exists";
     arp_entry_exists := args !! "arp_entry_exists" |}.

(** The keys of [args] that reach [**args] on line 363. *)
Definition remaining_args (args : list (string * string)) : list (string * string) :=
  delete "dp_mp_clock_diff" (delete "check_list" (delete "firewall_serial" args)).

Definition args_arp (check_list arp_entry : string) : list (string * string) :=
  [("firewall_serial", "0123"); ("check_list", check_list);
   ("arp_entry_exists", arp_entry)].

(** ** Concrete inputs *)

Definition no_args : readiness_args :=
  {| min_content_version := None; candidate_version := None;
     dp_mp_clock_diff := PNone; ipsec_tunnel_status := None;
     check_session_exists := None; arp_entry_exists := None |}.

Definition fw_standalone : FirewallProxy := {| get_ha_configuration := ∅ |}.
Definition fw_ha : FirewallProxy :=
  {| get_ha_configuration := {[ "enabled" := "yes" ]} |}.

Definition args_min_content_version : readiness_args :=
  {| min_content_version := Some "8421-7321"; candidate_version := None;
     dp_mp_clock_diff := PNone; ipsec_tunnel_status := None;
     check_session_exists := None; arp_entry_exists := None |}.

Definition args_candidate_version : readiness_args :=
  {| min_content_version := None; candidate_version := Some "10.2.3";
     dp_mp_clock_diff := PNone; ipsec_tunnel_status := None;
     check_session_exists := None; arp_entry_exists := None |}.

Definition args_clock_diff : readiness_args :=
  {| min_content_version := None; candidate_version := None;
     dp_mp_clock_diff := PInt 5; ipsec_tunnel_status := None;
     check_session_exists := None; arp_entry_exists := None |}.

Definition args_session (session_str : string) : readiness_args :=
  {| min_content_version := None; candidate_version := None;
     dp_mp_clock_diff := PNone; ipsec_tunnel_status := None;
     check_session_exists := Some session_str; arp_entry_exists := None |}.

(** A heap with one list object, at location 1. *)
Definition one_list (cl : list string) : heap := {[ 1%positive := cl ]}.

(** ** run_snapshot (lines 61-80) *)

(** The result is the list handed to [checks.run_snapshots] on line 78.
    The argument is read, never written. *)
Definition run_snapshot (firewall : FirewallProxy) (snapshot_list : option loc)
    (h : heap) : list string :=
  if is_empty_arg (deref h snapshot_list) then
    ["nics"; "routes"; "license"; "arp_table"; "content_version";
     "session_stats"; "ip_sec_tunnels"]
  else default [] (deref h snapshot_list).

(** ** Dicts *)

(** [d.get(k)] on the items of a dict. *)
Fixpoint dict_get (k : string) (d : list (string * pyval)) : option pyval :=
  match d with
  | [] => None
  | (k', v) :: d' => if String.eqb k' k then Some v else dict_get k d'
  end.

(** [d[k] = v]: an existing key keeps its place, a new key goes last. *)
Fixpoint dict_set (k : string) (v : pyval) (d : list (string * pyval))
    : list (string * pyval) :=
  match d with
  | [] => [(k, v)]
  | (k', v') :: d' =>
      if String.eqb k' k then (k', v) :: d' else (k', v') :: dict_set k v d'
  end.

(** [{**d, **items}]: the items are set one after the other. *)
Definition dict_update (d items : list (string * pyval)) : list (string * pyval) :=
  fold_left (λ acc kv, dict_set kv.1 kv.2 acc) items d.

Definition dict_keys (d : list (string * pyval)) : list string := map fst d.

(** [type(v).__name__] *)
Definition type_name (v : pyval) : string :=
  match v with
  | PNone => "NoneType"
  | PBool _ => "bool"
  | PInt _ => "int"
  | PStr _ => "str"
  | PList _ => "list"
  | PDict _ => "dict"
  end.

(** ** convert_readiness_results_to_table (lines 288-296) *)

(** [results] is the dict the evaluator returned, as its items in order.
    [**result] raises [TypeError] when [result] is no mapping. *)
Fixpoint convert_readiness_results_to_table (results : list (string * pyval))
    : result (list pyval) :=
  match results with
  | [] => Ok []
  | (key, res) :: rest =>
      match res with
      | PDict items =>
          match convert_readiness_results_to_table rest with
          | Ok table => Ok (PDict (dict_update [("Test", PStr key)] items) :: table)
          | Raise e => Raise e
          end
      | _ => Raise (TypeError ("'" +:+ type_name res +:+ "' object is not a mapping"))
      end
  end.

(** ** convert_snapshot_result_to_table (lines 299-308) *)

Definition convert_snapshot_result_to_table (results : list (string * pyval))
    : list pyval :=
  omap (λ kv, match kv.2 with
              | PDict items =>
                  Some (PDict [("test", PStr kv.1);
                               ("passed", default PNone (dict_get "passed" items))])
              | _ => None
              end) results.

(** ** command_run_snapshot (lines 377-396) *)

Section SnapshotCommand.
Variable argToList : option string → list string.

(** The result is the file name and the list handed to the evaluator;
    [fileResult] and [json.dumps] belong to the platform.  [run_snapshot]
    has no parameter besides [firewall] and [snapshot_list], both given
    by position, so the first key left in [args] on line 391 raises
    [TypeError]. *)
Definition command_run_snapshot (firewall : FirewallProxy)
    (args : list (string * string)) : result (string * list string) :=
  let snapshot_name := default "fw_snapshot" (args !! "snapshot_name") in
  match args !! "firewall_serial" with
  | None => Raise (KeyError "firewall_serial")
  | Some _ =>
      let args := delete "firewall_serial" args in
      let args :=
        if truthy (args !! "snapshot_name") then delete "snapshot_name" args
        else args in
      let snapshot_list := argToList (args !! "check_list") in
      let args := delete "check_list" args in
      match keyword_error "run_snapshot" ["firewall"; "snapshot_list"] ∅ args with
      | Some e => Raise e
      | None =>
          Ok (snapshot_name,
              run_snapshot firewall (Some 1%positive)
                {[ 1%positive := snapshot_list ]})
      end
  end.
End SnapshotCommand.

(** ** main (lines 426-454) *)

(** Line 429: [str(params.get('key')) or
    str((params.get('credentials') or {}).get('password', ''))], for a
    [key] that is a string or absent and [credentials] that is a dict of
    strings or absent.  [str(None)] is the string [None]. *)
Definition main_api_key (key : option string)
    (credentials : option (gmap string string)) : string :=
  let from_key := default "None" key in
  match from_key with
  | String _ _ => from_key
  | EmptyString =>
      let credentials :=
        match credentials with
        | Some c => if bool_decide (c = ∅) then ∅ else c
        | None => ∅
        end in
      default EmptyString (credentials !! "password")
  end.

(** ** Helpers of the statements *)

(** The bare identifiers of a directive list, in order. *)
Definition bare_names (out : list pyval) : list string :=
  omap (λ d, match d with PStr s => Some s | _ => None end) out.

(** The parameterized directives of a directive list, in order. *)
Definition parameterized_part (out : list pyval) : list pyval :=
  List.filter (λ d, match d with PStr _ => false | _ => true end) out.

(** The identifiers lines 126-179 may take out of the check list or add
    to it. *)
Definition handled_identifiers : list string :=
  ["content_version"; "free_disk_space"; "planes_clock_sync";
   "ip_sec_tunnel_status"; "session_exist"; "arp_entry_exists"].

(** The order in which lines 126-179 append parameterized directives. *)
Definition custom_order : list string :=
  ["content_version"; "free_disk_space"; "planes_clock_sync";
   "ip_sec_tunnel_status"; "session_exist"; "arp_entry_exist"].

(** Number of separators in a string. *)
Fixpoint count_char (c : ascii) (s : string) : nat :=
  match s with
  | EmptyString => 0
  | String c' s' => (if Ascii.eqb c' c then 1 else 0) + count_char c s'
  end.

Definition args_everything : readiness_args :=
  {| min_content_version := Some "8421-7321"; candidate_version := Some "10.2.3";
     dp_mp_clock_diff := PInt 5; ipsec_tunnel_status := Some "tunnel-1";
     check_session_exists := Some "10.10.10.10/8.8.8.8/443";
     arp_entry_exists := Some "10.0.0.6" |}.

Definition args_tunnel : readiness_args :=
  {| min_content_version := None; candidate_version := None;
     dp_mp_clock_diff := PNone; ipsec_tunnel_status := Some "tunnel-1";
     check_session_exists := None; arp_entry_exists := None |}.

(** [sep.join(fields)] *)
Fixpoint str_join (sep : ascii) (fields : list string) : string :=
  match fields with
  | [] => EmptyString
  | [f] => f
  | f :: fs => f +:+ String sep (str_join sep fs)
  end.

(** [type(v) is dict] *)
Definition is_dict (v : pyval) : bool :=
  match v with
  | PDict _ => true
  | _ => false
  end.

(** The user-facing names that lines 340-355 replace. *)
Definition check_aliases : list string := ["dp_mp_clock_diff"; "ipsec_tunnel"; "arp"].

Definition args_unexpected : list (string * string) :=
  [("firewall_serial", "0123"); ("check_list", "session_exist");
   ("check_session_exists", "10.10.10.10"); ("snapshot_name", "before");
   ("firewall", "fw-1")].

Definition args_check_list (check_list : string) : list (string * string) :=
  [("firewall_serial", "0123"); ("check_list", check_list)].

(** The keys of [args] that reach [**args] on line 391. *)
Definition snapshot_kwargs (args : list (string * string)) : list (string * string) :=
  let args := delete "firewall_serial" args in
  let args :=
    if truthy (args !! "snapshot_name") then delete "snapshot_name" args else args in
  delete "check_list" args.

(** * Properties *)

(** ** The model on concrete inputs *)

Example compare_snapshots_default :
  compare_snapshots PNone PNone None PNone ∅
  = [PDict [("nics", PDict [("count_change_threshold", PInt 10)])];
     PDict [("routes",
             PDict [("properties", PList [PStr "!flags"; PStr "!age"]);
                    ("count_change_threshold", PInt 10)])];
     PDict [("license",
             PDict [("properties",
                     PList [PStr "!serial"; PStr "!issued"; PStr "!authcode"])])];
     PDict [("arp_table",
             PDict [("properties", PList [PStr "!ttl"]);
                    ("count_change_threshold", PInt 10)])];
     PStr "content_version";
     session_stats_with (PInt 10);
     PDict [("ip_sec_tunnels", PDict [("properties", PList [PStr "state"])])]].
Proof. vm_compute. reflexivity. Qed.

Example run_readiness_checks_on_caller_list :
  run_readiness_checks fw_ha (Some 1%positive)
    (args_session "10.10.10.10/8.8.8.8/443")
    (one_list ["session_exist"; "ntp_sync"; "ip_sec_tunnel_status"])
  = (Ok [PStr "ntp_sync"; PStr "free_disk_space";
         PDict [("session_exist",
                 PDict [("source", PStr "10.10.10.10");
                        ("destination", PStr "8.8.8.8");
                        ("dest_port", PStr "443")])]],
     one_list ["ntp_sync"; "free_disk_space"]).
Proof. vm_compute. reflexivity. Qed.

Example run_readiness_checks_raising :
  run_readiness_checks fw_ha (Some 1%positive)
    (args_session "10.10.10.10/8.8.8.8")
    (one_list ["planes_clock_sync"; "session_exist"; "arp_entry_exists"])
  = (Raise (ValueError
              "10.10.10.10/8.8.8.8 is not a valid session string. Must be 'source/destination/port'."),
     one_list ["session_exist"; "arp_entry_exists"; "free_disk_space"]).
Proof. vm_compute. reflexivity. Qed.

Example command_renames :
  command_run_readiness_checks argToList_csv arg_to_number_decimal
    is_ip_valid_dotted fw_ha
    [("firewall_serial", "0123");
     ("check_list", "arp,ntp_sync,dp_mp_clock_diff");
     ("arp_entry_exists", "10.0.0.6"); ("dp_mp_clock_diff", "5")]
  = Ok [PStr "ntp_sync"; PStr "free_disk_space";
        PDict [("planes_clock_sync", PDict [("diff_threshold", PInt 5)])];
        PDict [("arp_entry_exist", PDict [("ip", PStr "10.0.0.6")])]].
Proof. vm_compute. reflexivity. Qed.

(** ** Lists *)

Lemma py_in_true x l : py_in x l = true ↔ x ∈ l.
Proof. unfold py_in. apply bool_decide_eq_true. Qed.

Lemma py_in_false x l : py_in x l = false ↔ x ∉ l.
Proof. unfold py_in. apply bool_decide_eq_false. Qed.

Lemma py_in_app x l k : py_in x (l ++ k) = py_in x l || py_in x k.
Proof.
  unfold py_in. apply eq_true_iff_eq.
  rewrite orb_true_iff, !bool_decide_eq_true. apply elem_of_app.
Qed.

Lemma list_remove_first_in x l :
  x ∈ l → list_remove_first x l = Some (remove_first x l).
Proof.
  unfold remove_first. induction l as [|y l IH]; intros Hin.
  - by apply elem_of_nil in Hin.
  - simpl. destruct (decide (y = x)) as [->|Hne]; [done|].
    apply elem_of_cons in Hin as [->|Hin]; [done|].
    rewrite (IH Hin). done.
Qed.

Lemma remove_first_not_in x l : x ∉ l → remove_first x l = l.
Proof.
  unfold remove_first. induction l as [|y l IH]; intros Hnin; [done|].
  simpl. apply not_elem_of_cons in Hnin as [Hne Hnin].
  destruct (decide (y = x)) as [->|_]; [done|].
  specialize (IH Hnin). destruct (list_remove_first x l); simpl in *; congruence.
Qed.

Lemma remove_first_cons x y l :
  remove_first x (y :: l) = if decide (y = x) then l else y :: remove_first x l.
Proof.
  unfold remove_first. simpl. destruct (decide (y = x)); [done|].
  by destruct (list_remove_first x l).
Qed.

Lemma elem_of_remove_first_ne x y l : y ≠ x → y ∈ remove_first x l ↔ y ∈ l.
Proof.
  intros Hne. induction l as [|z l IH]; [done|].
  rewrite remove_first_cons. destruct (decide (z = x)) as [->|Hz].
  - rewrite elem_of_cons. split; [by right|]. by intros [?|?].
  - rewrite !elem_of_cons, IH. done.
Qed.

Lemma py_in_remove_first_ne x y l : y ≠ x → py_in y (remove_first x l) = py_in y l.
Proof.
  intros Hne. apply eq_true_iff_eq. rewrite !py_in_true.
  by apply elem_of_remove_first_ne.
Qed.

Lemma occurrences_app x l k : occurrences x (l ++ k) = occurrences x l + occurrences x k.
Proof. unfold occurrences. induction l as [|y l IH]; simpl; [done|]. rewrite IH. lia. Qed.

Lemma occurrences_zero x l : x ∉ l ↔ occurrences x l = 0.
Proof.
  unfold occurrences. induction l as [|y l IH]; simpl.
  - split; [done|]. intros _. apply not_elem_of_nil.
  - rewrite not_elem_of_cons, IH. destruct (String.eqb_spec y x); split.
    + intros [? _]. congruence.
    + simpl. lia.
    + intros [_ ?]. simpl. lia.
    + simpl. intros. split; [congruence|lia].
Qed.

Lemma occurrences_remove_first_ne x y l :
  y ≠ x → occurrences y (remove_first x l) = occurrences y l.
Proof.
  intros Hne. induction l as [|z l IH]; [done|].
  rewrite remove_first_cons. destruct (decide (z = x)) as [->|Hz].
  - unfold occurrences. simpl. destruct (String.eqb_spec x y); [congruence|done].
  - unfold occurrences in *. simpl. by rewrite IH.
Qed.

Lemma occurrences_remove_first x l :
  occurrences x (remove_first x l) = occurrences x l - 1.
Proof.
  induction l as [|z l IH]; [done|].
  rewrite remove_first_cons. destruct (decide (z = x)) as [->|Hz].
  - unfold occurrences. simpl. rewrite String.eqb_refl. lia.
  - unfold occurrences in *. simpl. rewrite IH.
    destruct (String.eqb_spec z x); [congruence|]. simpl. lia.
Qed.

(** ** The statements of the body *)

Ltac run_M := unfold mbind, M_bind, mret, M_ret, when, check_list_contains,
  custom_checks_append, check_list_append, check_config, raise; simpl.

Lemma frame_eta s : {| check_list := check_list s; custom_checks := custom_checks s |} = s.
Proof. by destruct s. Qed.

Lemma check_list_remove_in x s :
  py_in x (check_list s) = true →
  check_list_remove x s
  = (Ok (), {| check_list := remove_first x (check_list s);
               custom_checks := custom_checks s |}).
Proof.
  intros Hin. apply py_in_true in Hin. unfold check_list_remove.
  by rewrite (list_remove_first_in _ _ Hin).
Qed.

(** The shape shared by lines 141-148, 150-157 and 172-179. *)
Lemma guarded_block_spec x (c : bool) d s :
  (has ← check_list_contains x;
   when has (when c (custom_checks_append d);; check_list_remove x)) s
  = (Ok (), {| check_list := remove_first x (check_list s);
               custom_checks := custom_checks s
                                ++ (if py_in x (check_list s) && c then [d] else []) |}).
Proof.
  run_M. destruct (py_in x (check_list s)) eqn:Hin; simpl.
  - destruct c; simpl; rewrite check_list_remove_in by done; simpl;
      [done | by rewrite app_nil_r].
  - apply py_in_false in Hin. rewrite remove_first_not_in by done.
    by rewrite app_nil_r, frame_eta.
Qed.

Lemma step_content_version_spec a s :
  step_content_version a s
  = (Ok (), {| check_list := after_content_version a (check_list s);
               custom_checks :=
                 custom_checks s
                 ++ (if py_in "content_version" (check_list s)
                        && truthy (min_content_version a)
                     then [content_version_directive a] else []) |}).
Proof.
  unfold step_content_version, after_content_version. run_M.
  destruct (py_in "content_version" (check_list s)) eqn:Hin; simpl.
  - destruct (truthy (min_content_version a)); simpl.
    + by rewrite check_list_remove_in.
    + by rewrite app_nil_r, frame_eta.
  - by rewrite app_nil_r, frame_eta.
Qed.

Lemma step_free_disk_space_spec a s :
  step_free_disk_space a s
  = (Ok (), {| check_list :=
                 if truthy (candidate_version a) then check_list s
                 else check_list s ++ ["free_disk_space"];
               custom_checks :=
                 custom_checks s
                 ++ (if truthy (candidate_version a)
                     then [free_disk_space_directive a] else []) |}).
Proof.
  unfold step_free_disk_space. destruct (truthy (candidate_version a)); run_M; [done|].
  by rewrite app_nil_r.
Qed.

Lemma step_planes_clock_sync_spec a s :
  step_planes_clock_sync a s
  = (Ok (), {| check_list := remove_first "planes_clock_sync" (check_list s);
               custom_checks :=
                 custom_checks s
                 ++ (if py_in "planes_clock_sync" (check_list s)
                        && is_non_negative_int (dp_mp_clock_diff a)
                     then [planes_clock_sync_directive a] else []) |}).
Proof. apply guarded_block_spec. Qed.

Lemma step_ip_sec_tunnel_status_spec a s :
  step_ip_sec_tunnel_status a s
  = (Ok (), {| check_list := remove_first "ip_sec_tunnel_status" (check_list s);
               custom_checks :=
                 custom_checks s
                 ++ (if py_in "ip_sec_tunnel_status" (check_list s)
                        && truthy (ipsec_tunnel_status a)
                     then [ip_sec_tunnel_status_directive a] else []) |}).
Proof. apply guarded_block_spec. Qed.

Lemma step_arp_entry_exists_spec a s :
  step_arp_entry_exists a s
  = (Ok (), {| check_list := remove_first "arp_entry_exists" (check_list s);
               custom_checks :=
                 custom_checks s ++ custom_after_arp a (check_list s) |}).
Proof. apply guarded_block_spec. Qed.

(** Lines 159-170 either append and remove, or raise before the removal. *)
Lemma step_session_exist_spec a s :
  step_session_exist a s
  = match session_directive a (check_list s) with
    | Ok ds => (Ok (), {| check_list := remove_first "session_exist" (check_list s);
                          custom_checks := custom_checks s ++ ds |})
    | Raise e => (Raise e, s)
    end.
Proof.
  unfold step_session_exist, session_directive. run_M.
  destruct (py_in "session_exist" (check_list s)) eqn:Hin; simpl.
  - destruct (check_session_exists a) as [[|c str]|]; simpl.
    + rewrite check_list_remove_in by done. by rewrite app_nil_r.
    + unfold try_parse_session.
      destruct (parse_session (String c str)) as [v|[msg|msg|msg]] eqn:Hp; run_M.
      * by rewrite check_list_remove_in.
      * done.
      * exfalso. unfold parse_session in Hp.
        by repeat case_match.
      * exfalso. unfold parse_session in Hp.
        by repeat case_match.
    + rewrite check_list_remove_in by done. by rewrite app_nil_r.
  - apply py_in_false in Hin. rewrite remove_first_not_in by done.
    by rewrite app_nil_r, frame_eta.
Qed.

(** ** The body and the function in closed form *)

Lemma py_in_after_free_disk_space a x cl :
  x ≠ "content_version" → x ≠ "free_disk_space" →
  py_in x (after_free_disk_space a cl) = py_in x cl.
Proof.
  intros Hcv Hfds. unfold after_free_disk_space, after_content_version.
  assert (py_in x ["free_disk_space"] = false) as Hx.
  { apply py_in_false. rewrite list_elem_of_singleton. done. }
  repeat case_match; rewrite ?py_in_app, ?Hx, ?orb_false_r;
    rewrite ?py_in_remove_first_ne by done; done.
Qed.

Lemma py_in_after_ip_sec_tunnel_status a x cl :
  x ≠ "content_version" → x ≠ "free_disk_space" →
  x ≠ "planes_clock_sync" → x ≠ "ip_sec_tunnel_status" →
  py_in x (after_ip_sec_tunnel_status a cl) = py_in x cl.
Proof.
  intros. unfold after_ip_sec_tunnel_status.
  rewrite !py_in_remove_first_ne by done. by apply py_in_after_free_disk_space.
Qed.

Lemma session_directive_ext a l1 l2 :
  py_in "session_exist" l1 = py_in "session_exist" l2 →
  session_directive a l1 = session_directive a l2.
Proof. unfold session_directive. by intros ->. Qed.

Lemma compile_checks_spec a cl :
  compile_checks a {| check_list := cl; custom_checks := [] |}
  = match session_directive a cl with
    | Ok ds =>
        let custom := custom_before_session a cl ++ ds ++ custom_after_arp a cl in
        (Ok (map PStr (bare_checks a cl) ++ custom),
         {| check_list := bare_checks a cl; custom_checks := custom |})
    | Raise e =>
        (Raise e, {| check_list := after_ip_sec_tunnel_status a cl;
                     custom_checks := custom_before_session a cl |})
    end.
Proof.
  unfold compile_checks.
  unfold mbind at 1, M_bind at 1. rewrite step_content_version_spec.
  unfold mbind at 1, M_bind at 1. rewrite step_free_disk_space_spec.
  unfold mbind at 1, M_bind at 1. rewrite step_planes_clock_sync_spec.
  unfold mbind at 1, M_bind at 1. rewrite step_ip_sec_tunnel_status_spec.
  unfold mbind at 1, M_bind at 1. rewrite step_session_exist_spec.
  cbn [check_list custom_checks app].
  fold (after_free_disk_space a cl). fold (after_ip_sec_tunnel_status a cl).
  rewrite py_in_remove_first_ne by done.
  rewrite !py_in_after_free_disk_space by done.
  rewrite (session_directive_ext a (after_ip_sec_tunnel_status a cl) cl)
    by (by apply py_in_after_ip_sec_tunnel_status).
  rewrite <- !app_assoc. fold (custom_before_session a cl).
  destruct (session_directive a cl) as [ds|e]; [|done].
  unfold mbind, M_bind. rewrite step_arp_entry_exists_spec.
  unfold check_config. cbn [check_list custom_checks].
  fold (bare_checks a cl). unfold custom_after_arp.
  rewrite py_in_remove_first_ne by done.
  rewrite py_in_after_ip_sec_tunnel_status by done.
  by rewrite <- !app_assoc.
Qed.

Lemma run_readiness_checks_spec firewall r a h :
  run_readiness_checks firewall r a h
  = (directives a (working_list firewall (deref h r)),
     match r with
     | Some l =>
         if is_empty_arg (h !! l) then h
         else <[l := list_after_call a (default [] (h !! l))]> h
     | None => h
     end).
Proof.
  unfold run_readiness_checks, working_list, directives, list_after_call.
  destruct r as [l|]; simpl.
  - destruct (h !! l) as [[|x cl]|] eqn:Hl; simpl; rewrite compile_checks_spec;
      by destruct (session_directive a _).
  - rewrite compile_checks_spec. by destruct (session_directive a _).
Qed.

(** ** Counting directives *)

Lemma count_if_app {A} (f : A → bool) l k :
  count_if f (l ++ k) = count_if f l + count_if f k.
Proof. induction l as [|x l IH]; simpl; [done|]. rewrite IH. lia. Qed.

Lemma count_if_optional {A} (f : A → bool) (c : bool) d :
  count_if f (if c then [d] else []) = if c && f d then 1 else 0.
Proof. destruct c; simpl; [|done]. destruct (f d); done. Qed.

Lemma count_if_zero {A} (f : A → bool) l :
  count_if f l = 0 ↔ ∀ d, d ∈ l → f d = false.
Proof.
  induction l as [|x l IH]; simpl.
  - split; [|done]. intros _ d Hd. by apply elem_of_nil in Hd.
  - split.
    + intros Hc d Hd. apply elem_of_cons in Hd as [->|Hd].
      * destruct (f x); [simpl in Hc; lia|done].
      * apply IH; [|done]. destruct (f x); simpl in Hc; lia.
    + intros Hall. rewrite (Hall x) by (by left). simpl. apply IH.
      intros d Hd. apply Hall. by right.
Qed.

Lemma count_if_pos {A} (f : A → bool) l d : d ∈ l → f d = true → 0 < count_if f l.
Proof.
  intros Hd Hf. destruct (count_if f l) eqn:Hc; [|lia].
  rewrite count_if_zero in Hc. rewrite (Hc d Hd) in Hf. done.
Qed.

Lemma count_bare_strings x l : count_if (is_bare x) (map PStr l) = occurrences x l.
Proof. unfold occurrences. induction l as [|y l IH]; simpl; [done|]. by rewrite IH. Qed.

Lemma count_parameterized_strings x l : count_if (is_parameterized x) (map PStr l) = 0.
Proof. induction l as [|y l IH]; simpl; done. Qed.

Lemma bare_elem_of x out : PStr x ∈ out ↔ 0 < count_if (is_bare x) out.
Proof.
  split.
  - intros Hin. apply (count_if_pos _ _ _ Hin). simpl. apply String.eqb_refl.
  - induction out as [|d out IH]; simpl; [lia|].
    destruct (is_bare x d) eqn:Hd.
    + intros _. destruct d; simpl in Hd; try done.
      apply String.eqb_eq in Hd as ->. by left.
    + intros Hc. right. apply IH. lia.
Qed.

Lemma occurrences_pos x l : x ∈ l ↔ 0 < occurrences x l.
Proof.
  destruct (decide (x ∈ l)) as [Hin|Hnin].
  - split; [|done]. intros _. destruct (occurrences x l) eqn:Ho; [|lia].
    apply occurrences_zero in Ho. done.
  - split; [done|]. apply occurrences_zero in Hnin. lia.
Qed.

(** The parameterized directives are no bare identifiers. *)
Lemma count_bare_custom_before_session x a cl :
  count_if (is_bare x) (custom_before_session a cl) = 0.
Proof.
  unfold custom_before_session. rewrite !count_if_app, !count_if_optional.
  simpl. by rewrite !andb_false_r.
Qed.

Lemma session_directive_shape a cl ds :
  session_directive a cl = Ok ds →
  ds = [] ∨ ∃ v, ds = [PDict [("session_exist", v)]].
Proof.
  unfold session_directive. intros Hs. repeat case_match; simplify_eq; eauto.
Qed.

Lemma count_bare_session x a cl ds :
  session_directive a cl = Ok ds → count_if (is_bare x) ds = 0.
Proof. intros Hs. apply session_directive_shape in Hs as [->|[v ->]]; done. Qed.

Lemma count_parameterized_session x a cl ds :
  session_directive a cl = Ok ds → x ≠ "session_exist" →
  count_if (is_parameterized x) ds = 0.
Proof.
  intros Hs Hx. apply session_directive_shape in Hs as [->|[v ->]]; [done|].
  cbv [count_if is_parameterized].
  destruct (String.eqb_spec "session_exist" x); [congruence|done].
Qed.

Lemma count_bare_custom_after_arp x a cl :
  count_if (is_bare x) (custom_after_arp a cl) = 0.
Proof.
  unfold custom_after_arp. rewrite count_if_optional. simpl. by rewrite andb_false_r.
Qed.

Lemma directives_Ok a cl out :
  directives a cl = Ok out →
  ∃ ds, session_directive a cl = Ok ds
        ∧ out = map PStr (bare_checks a cl)
                ++ custom_before_session a cl ++ ds ++ custom_after_arp a cl.
Proof.
  unfold directives. destruct (session_directive a cl) as [ds|e]; [|done].
  intros [= <-]. eauto.
Qed.

(** The bare identifiers of the output are those left in the list. *)
Lemma count_bare_directives x a cl out :
  directives a cl = Ok out →
  count_if (is_bare x) out = occurrences x (bare_checks a cl).
Proof.
  intros (ds & Hs & ->)%directives_Ok.
  rewrite !count_if_app, count_bare_strings, count_bare_custom_before_session,
    (count_bare_session _ _ _ _ Hs), count_bare_custom_after_arp. lia.
Qed.

Lemma occurrences_bare_checks x a cl :
  x ≠ "planes_clock_sync" → x ≠ "ip_sec_tunnel_status" →
  x ≠ "session_exist" → x ≠ "arp_entry_exists" →
  occurrences x (bare_checks a cl) = occurrences x (after_free_disk_space a cl).
Proof.
  intros. unfold bare_checks, after_ip_sec_tunnel_status.
  by rewrite !occurrences_remove_first_ne.
Qed.

Ltac count_parameterized Hs :=
  rewrite !count_if_app, count_parameterized_strings,
    (count_parameterized_session _ _ _ _ Hs) by done;
  unfold custom_before_session, custom_after_arp;
  rewrite !count_if_app, !count_if_optional;
  unfold content_version_directive, free_disk_space_directive,
    planes_clock_sync_directive, ip_sec_tunnel_status_directive,
    arp_entry_exist_directive;
  simpl; rewrite ?andb_true_r, ?andb_false_r; simpl.

Lemma count_parameterized_content_version a cl out :
  directives a cl = Ok out →
  count_if (is_parameterized "content_version") out
  = if py_in "content_version" cl && truthy (min_content_version a) then 1 else 0.
Proof. intros (ds & Hs & ->)%directives_Ok. count_parameterized Hs. lia. Qed.

Lemma count_parameterized_free_disk_space a cl out :
  directives a cl = Ok out →
  count_if (is_parameterized "free_disk_space") out
  = if truthy (candidate_version a) then 1 else 0.
Proof. intros (ds & Hs & ->)%directives_Ok. count_parameterized Hs. lia. Qed.

Lemma count_parameterized_planes_clock_sync a cl out :
  directives a cl = Ok out →
  count_if (is_parameterized "planes_clock_sync") out
  = if py_in "planes_clock_sync" cl && is_non_negative_int (dp_mp_clock_diff a)
    then 1 else 0.
Proof. intros (ds & Hs & ->)%directives_Ok. count_parameterized Hs. lia. Qed.

Lemma occurrences_singleton x y :
  occurrences x [y] = if String.eqb y x then 1 else 0.
Proof. unfold occurrences. simpl. destruct (y =? x)%string; done. Qed.

Lemma occurrences_after_free_disk_space x a cl :
  occurrences x (after_free_disk_space a cl)
  = occurrences x cl
    - (if py_in "content_version" cl && truthy (min_content_version a)
          && String.eqb "content_version" x then 1 else 0)
    + (if negb (truthy (candidate_version a)) && String.eqb "free_disk_space" x
       then 1 else 0).
Proof.
  unfold after_free_disk_space, after_content_version.
  assert (occurrences x (remove_first "content_version" cl)
          = occurrences x cl - if String.eqb "content_version" x then 1 else 0) as Hrm.
  { destruct (String.eqb_spec "content_version" x) as [<-|Hx].
    - apply occurrences_remove_first.
    - rewrite occurrences_remove_first_ne by done. lia. }
  destruct (py_in "content_version" cl && truthy (min_content_version a));
    destruct (truthy (candidate_version a));
    cbn [andb negb]; rewrite ?occurrences_app, ?occurrences_singleton, ?Hrm;
    destruct ("content_version" =? x)%string;
    destruct ("free_disk_space" =? x)%string; lia.
Qed.

(** The output of a call. *)
Lemma run_output firewall r a h :
  (run_readiness_checks firewall r a h).1
  = directives a (working_list firewall (deref h r)).
Proof. by rewrite run_readiness_checks_spec. Qed.

(** The output of a call on a caller's list that is not empty. *)
Lemma run_on_caller_list firewall r a h cl :
  deref h r = Some cl → cl ≠ [] →
  (run_readiness_checks firewall r a h).1 = directives a cl.
Proof.
  intros Hcl Hne. rewrite run_readiness_checks_spec. simpl.
  unfold working_list. rewrite Hcl. by destruct cl.
Qed.

Lemma elem_of_not_nil {A} (x : A) l : x ∈ l → l ≠ [].
Proof. intros Hx ->. by apply elem_of_nil in Hx. Qed.

(** The only exception of the function is the one of line 164. *)
Lemma session_directive_returns a cl :
  (∀ s, check_session_exists a = Some s → s ≠ EmptyString →
        length (str_split "/" s) = 3) →
  ∃ ds, session_directive a cl = Ok ds.
Proof.
  intros Hwf. unfold session_directive.
  destruct (py_in "session_exist" cl); [|eauto].
  destruct (check_session_exists a) as [[|c s]|] eqn:Hs; eauto.
  specialize (Hwf _ eq_refl ltac:(done)). unfold parse_session.
  destruct (str_split "/" (String c s)) as [|f1 [|f2 [|f3 [|f4 fs]]]];
    simpl in Hwf; try done; eauto.
Qed.

Lemma run_readiness_checks_returns firewall r a h :
  (∀ s, check_session_exists a = Some s → s ≠ EmptyString →
        length (str_split "/" s) = 3) →
  ∃ out, (run_readiness_checks firewall r a h).1 = Ok out.
Proof.
  intros Hwf. rewrite run_readiness_checks_spec. cbn [fst]. unfold directives.
  destruct (session_directive_returns a (working_list firewall (deref h r)) Hwf)
    as [ds ->]. eauto.
Qed.

Lemma run_readiness_checks_raises firewall r a h e :
  (run_readiness_checks firewall r a h).1 = Raise e →
  ∃ s, check_session_exists a = Some s
       ∧ e = ValueError
               (s +:+ " is not a valid session string. Must be 'source/destination/port'.").
Proof.
  rewrite run_readiness_checks_spec. cbn [fst]. unfold directives, session_directive.
  intros Hrun. repeat case_match; simplify_eq; eauto.
Qed.

(** * The claims *)

(** ** C1: content_version *)

(** C1, counterexample.  Without [min_content_version] the bare
    identifier [content_version] is still in the output (line 130: the
    evaluator then checks for the latest content version); and with
    [min_content_version], [remove] takes out one occurrence only. *)
Lemma content_version_not_dropped :
  (run_readiness_checks fw_standalone (Some 1%positive) no_args
     (one_list ["content_version"])).1
  = Ok [PStr "content_version"; PStr "free_disk_space"]
  ∧ (run_readiness_checks fw_standalone (Some 1%positive) args_min_content_version
       (one_list ["content_version"; "content_version"])).1
    = Ok [PStr "content_version"; PStr "free_disk_space";
          PDict [("content_version", PDict [("version", PStr "8421-7321")])]].
Proof. split; vm_compute; reflexivity. Qed.

(** C1, as amended.  For a check list that contains [content_version]:
    without [min_content_version] every bare [content_version] stays in
    the output and no parameterized [content_version] directive is
    emitted; with [min_content_version] the output holds the directive
    [{content_version: {version: min_content_version}}] once and one bare
    occurrence fewer than the check list, so none when the identifier
    occurred once. *)
Theorem content_version_kept_or_promoted firewall r a h cl out :
  deref h r = Some cl → "content_version" ∈ cl →
  (run_readiness_checks firewall r a h).1 = Ok out →
  (truthy (min_content_version a) = false →
     PStr "content_version" ∈ out
     ∧ count_if (is_bare "content_version") out = occurrences "content_version" cl
     ∧ count_if (is_parameterized "content_version") out = 0)
  ∧ (truthy (min_content_version a) = true →
     PDict [("content_version", PDict [("version", str_value (min_content_version a))])]
       ∈ out
     ∧ count_if (is_parameterized "content_version") out = 1
     ∧ count_if (is_bare "content_version") out = occurrences "content_version" cl - 1
     ∧ (occurrences "content_version" cl = 1 → PStr "content_version" ∉ out)).
Proof.
  intros Hcl Hin Hrun.
  rewrite (run_on_caller_list _ _ _ _ _ Hcl (elem_of_not_nil _ _ Hin)) in Hrun.
  pose proof (count_bare_directives "content_version" _ _ _ Hrun) as Hbare.
  pose proof (count_parameterized_content_version _ _ _ Hrun) as Hpar.
  rewrite occurrences_bare_checks, occurrences_after_free_disk_space in Hbare by done.
  pose proof Hin as Hpos. apply occurrences_pos in Hpos.
  apply py_in_true in Hin. rewrite Hin in Hbare, Hpar. simpl in Hbare, Hpar.
  rewrite andb_false_r in Hbare. simpl in Hbare.
  split; intros Ht; rewrite Ht in Hbare, Hpar; simpl in Hbare, Hpar.
  - split_and!; [|lia|done]. apply bare_elem_of. lia.
  - split_and!; [|done|lia|].
    + apply directives_Ok in Hrun as (ds & _ & ->).
      apply elem_of_app. right. apply elem_of_app. left.
      unfold custom_before_session. rewrite Hin, Ht. simpl. by left.
    + intros Hone. rewrite bare_elem_of. lia.
Qed.

Lemma content_version_kept_or_promoted_witness :
  deref (one_list ["ntp_sync"; "content_version"]) (Some 1%positive)
  = Some ["ntp_sync"; "content_version"]
  ∧ PDict [("content_version", PDict [("version", PStr "8421-7321")])]
    ∈ [PStr "ntp_sync"; PStr "free_disk_space";
       PDict [("content_version", PDict [("version", PStr "8421-7321")])]]
  ∧ PStr "content_version"
    ∉ [PStr "ntp_sync"; PStr "free_disk_space";
       PDict [("content_version", PDict [("version", PStr "8421-7321")])]].
Proof.
  assert (deref (one_list ["ntp_sync"; "content_version"]) (Some 1%positive)
          = Some ["ntp_sync"; "content_version"]) as Hcl by reflexivity.
  assert ("content_version" ∈ ["ntp_sync"; "content_version"]) as Hin
    by (apply py_in_true; reflexivity).
  split; [exact Hcl|].
  destruct (content_version_kept_or_promoted fw_standalone (Some 1%positive)
              args_min_content_version _ _ _ Hcl Hin eq_refl) as [_ Hsup].
  destruct (Hsup eq_refl) as (Hd & _ & _ & Hno).
  split; [exact Hd | exact (Hno eq_refl)].
Defined.

(** ** C2: free_disk_space *)

Lemma occurrences_default_check_list x firewall :
  x ∉ ["panorama"; "ntp_sync"; "candidate_config"; "active_support"; "ha"] →
  occurrences x (default_check_list firewall) = 0.
Proof.
  intros Hx. apply occurrences_zero. intros Hin. apply Hx.
  unfold default_check_list in Hin. apply elem_of_app in Hin as [Hin|Hin].
  - apply (elem_of_app [_; _; _; _] ["ha"]). by left.
  - destruct (ha_enabled firewall); [|by apply elem_of_nil in Hin].
    apply (elem_of_app [_; _; _; _] ["ha"]). by right.
Qed.

Lemma occurrences_working_list x firewall v :
  x ∉ ["panorama"; "ntp_sync"; "candidate_config"; "active_support"; "ha"] →
  occurrences x (working_list firewall v) = occurrences x (default [] v).
Proof.
  intros Hx. unfold working_list. destruct v as [[|y l]|]; simpl; try done;
    by rewrite occurrences_default_check_list.
Qed.

(** C2, counterexample.  A caller's list that names [free_disk_space]
    keeps it, and the function appends its own directive all the same:
    the output holds two. *)
Lemma free_disk_space_duplicated :
  (run_readiness_checks fw_standalone (Some 1%positive) no_args
     (one_list ["free_disk_space"])).1
  = Ok [PStr "free_disk_space"; PStr "free_disk_space"]
  ∧ (run_readiness_checks fw_standalone (Some 1%positive) args_candidate_version
       (one_list ["free_disk_space"])).1
    = Ok [PStr "free_disk_space";
          PDict [("free_disk_space", PDict [("image_version", PStr "10.2.3")])]].
Proof. split; vm_compute; reflexivity. Qed.

(** C2, as amended.  Every output holds the [free_disk_space] directive
    that the function appends: [{free_disk_space: {image_version:
    candidate_version}}] when [candidate_version] is supplied, the bare
    identifier otherwise; the caller cannot suppress it.  The occurrences
    of [free_disk_space] in the caller's list stay in the output as bare
    identifiers, so the output holds one [free_disk_space] directive more
    than the caller's list has occurrences: exactly one when the caller's
    list does not name it. *)
Theorem free_disk_space_always_appended firewall r a h out :
  (run_readiness_checks firewall r a h).1 = Ok out →
  count_if (is_bare "free_disk_space") out
  + count_if (is_parameterized "free_disk_space") out
  = occurrences "free_disk_space" (default [] (deref h r)) + 1
  ∧ (truthy (candidate_version a) = true →
     PDict [("free_disk_space",
             PDict [("image_version", str_value (candidate_version a))])] ∈ out
     ∧ count_if (is_parameterized "free_disk_space") out = 1
     ∧ count_if (is_bare "free_disk_space") out
       = occurrences "free_disk_space" (default [] (deref h r)))
  ∧ (truthy (candidate_version a) = false →
     PStr "free_disk_space" ∈ out
     ∧ count_if (is_parameterized "free_disk_space") out = 0
     ∧ count_if (is_bare "free_disk_space") out
       = occurrences "free_disk_space" (default [] (deref h r)) + 1).
Proof.
  rewrite run_output. intros Hrun.
  pose proof (count_bare_directives "free_disk_space" _ _ _ Hrun) as Hbare.
  pose proof (count_parameterized_free_disk_space _ _ _ Hrun) as Hpar.
  rewrite occurrences_bare_checks, occurrences_after_free_disk_space in Hbare by done.
  rewrite occurrences_working_list in Hbare
    by (intros Hin; apply py_in_true in Hin; discriminate Hin).
  rewrite andb_false_r in Hbare. simpl in Hbare.
  destruct (truthy (candidate_version a)) eqn:Ht; simpl in Hbare.
  - split_and!; [lia| |done].
    intros _. split_and!; [|done|lia].
    apply directives_Ok in Hrun as (ds & _ & ->).
    apply elem_of_app. right. apply elem_of_app. left.
    unfold custom_before_session. rewrite Ht.
    apply elem_of_app. right. apply elem_of_app. left. by left.
  - split_and!; [lia|done|].
    intros _. split_and!; [|done|lia]. apply bare_elem_of. lia.
Qed.

Lemma free_disk_space_always_appended_witness :
  (run_readiness_checks fw_ha None args_candidate_version ∅).1
  = Ok [PStr "panorama"; PStr "ntp_sync"; PStr "candidate_config";
        PStr "active_support"; PStr "ha";
        PDict [("free_disk_space", PDict [("image_version", PStr "10.2.3")])]]
  ∧ count_if (is_bare "free_disk_space")
      [PStr "panorama"; PStr "ntp_sync"; PStr "candidate_config";
       PStr "active_support"; PStr "ha";
       PDict [("free_disk_space", PDict [("image_version", PStr "10.2.3")])]]
    + count_if (is_parameterized "free_disk_space")
        [PStr "panorama"; PStr "ntp_sync"; PStr "candidate_config";
         PStr "active_support"; PStr "ha";
         PDict [("free_disk_space", PDict [("image_version", PStr "10.2.3")])]]
    = 0 + 1.
Proof.
  split; [reflexivity|].
  exact (proj1 (free_disk_space_always_appended fw_ha None args_candidate_version
                  ∅ _ eq_refl)).
Defined.

(** ** C8: planes_clock_sync *)

(** C8, counterexample.  [remove] deletes the first occurrence only: a
    list that names [planes_clock_sync] twice keeps one bare identifier. *)
Lemma planes_clock_sync_twice :
  (run_readiness_checks fw_standalone (Some 1%positive) no_args
     (one_list ["planes_clock_sync"; "planes_clock_sync"])).1
  = Ok [PStr "planes_clock_sync"; PStr "free_disk_space"].
Proof. vm_compute. reflexivity. Qed.

(** C8, as amended.  For a check list that contains [planes_clock_sync]
    the output holds one bare occurrence fewer than the check list, so
    none when the identifier occurred once; the directive
    [{planes_clock_sync: {diff_threshold: dp_mp_clock_diff}}] is in the
    output if and only if [dp_mp_clock_diff] is a non-negative integer,
    and otherwise the output holds no parameterized [planes_clock_sync]
    directive. *)
Theorem planes_clock_sync_first_removed firewall r a h cl out :
  deref h r = Some cl → "planes_clock_sync" ∈ cl →
  (run_readiness_checks firewall r a h).1 = Ok out →
  count_if (is_bare "planes_clock_sync") out = occurrences "planes_clock_sync" cl - 1
  ∧ (occurrences "planes_clock_sync" cl = 1 → PStr "planes_clock_sync" ∉ out)
  ∧ (PDict [("planes_clock_sync", PDict [("diff_threshold", dp_mp_clock_diff a)])] ∈ out
     ↔ is_non_negative_int (dp_mp_clock_diff a) = true)
  ∧ count_if (is_parameterized "planes_clock_sync") out
    = (if is_non_negative_int (dp_mp_clock_diff a) then 1 else 0).
Proof.
  intros Hcl Hin Hrun.
  rewrite (run_on_caller_list _ _ _ _ _ Hcl (elem_of_not_nil _ _ Hin)) in Hrun.
  pose proof (count_bare_directives "planes_clock_sync" _ _ _ Hrun) as Hbare.
  pose proof (count_parameterized_planes_clock_sync _ _ _ Hrun) as Hpar.
  unfold bare_checks, after_ip_sec_tunnel_status in Hbare.
  rewrite !occurrences_remove_first_ne, occurrences_remove_first,
    occurrences_after_free_disk_space in Hbare by done.
  rewrite !andb_false_r in Hbare. simpl in Hbare.
  apply py_in_true in Hin. rewrite Hin in Hpar. simpl in Hpar.
  split_and!; [lia| | |done].
  - intros Hone. rewrite bare_elem_of. lia.
  - split.
    + intros Hd. destruct (is_non_negative_int (dp_mp_clock_diff a)); [done|].
      apply (count_if_pos (is_parameterized "planes_clock_sync")) in Hd; [lia|done].
    + intros Hnn. apply directives_Ok in Hrun as (ds & _ & ->).
      apply elem_of_app. right. apply elem_of_app. left.
      unfold custom_before_session. rewrite Hin, Hnn.
      do 2 (apply elem_of_app; right). apply elem_of_app. left. by left.
Qed.

Lemma planes_clock_sync_first_removed_witness :
  deref (one_list ["planes_clock_sync"; "ntp_sync"]) (Some 1%positive)
  = Some ["planes_clock_sync"; "ntp_sync"]
  ∧ (run_readiness_checks fw_standalone (Some 1%positive) args_clock_diff
       (one_list ["planes_clock_sync"; "ntp_sync"])).1
    = Ok [PStr "ntp_sync"; PStr "free_disk_space";
          PDict [("planes_clock_sync", PDict [("diff_threshold", PInt 5)])]]
  ∧ PStr "planes_clock_sync"
    ∉ [PStr "ntp_sync"; PStr "free_disk_space";
       PDict [("planes_clock_sync", PDict [("diff_threshold", PInt 5)])]].
Proof.
  assert ("planes_clock_sync" ∈ ["planes_clock_sync"; "ntp_sync"]) as Hin
    by (apply py_in_true; reflexivity).
  split_and!; [reflexivity|reflexivity|].
  exact (proj1 (proj2 (planes_clock_sync_first_removed fw_standalone (Some 1%positive)
                         args_clock_diff
                         (one_list ["planes_clock_sync"; "ntp_sync"])
                         ["planes_clock_sync"; "ntp_sync"] _
                         eq_refl Hin eq_refl)) eq_refl).
Defined.

(** ** C3: the default check list *)

(** C3, counterexample.  With [candidate_version] the list for an empty
    check list ends in the parameterized directive, not in the bare
    identifier. *)
Lemma default_list_with_candidate_version :
  (run_readiness_checks fw_standalone None args_candidate_version ∅).1
  = Ok [PStr "panorama"; PStr "ntp_sync"; PStr "candidate_config";
        PStr "active_support";
        PDict [("free_disk_space", PDict [("image_version", PStr "10.2.3")])]]
  ∧ (run_readiness_checks fw_standalone None args_candidate_version ∅).1
    ≠ Ok [PStr "panorama"; PStr "ntp_sync"; PStr "candidate_config";
          PStr "active_support"; PStr "free_disk_space"].
Proof. split; [vm_compute; reflexivity|]. vm_compute. discriminate. Qed.

Lemma directives_default_check_list firewall a :
  directives a (default_check_list firewall)
  = Ok (map PStr (default_check_list firewall)
        ++ [if truthy (candidate_version a)
            then free_disk_space_directive a else PStr "free_disk_space"]).
Proof.
  unfold default_check_list.
  destruct (ha_enabled firewall), (truthy (candidate_version a)) eqn:Ht;
    unfold directives, session_directive, bare_checks, after_ip_sec_tunnel_status,
      after_free_disk_space, after_content_version, custom_before_session,
      custom_after_arp; rewrite Ht; reflexivity.
Qed.

(** C3, as amended.  For an empty check list ([None] or [[]]) and no
    [candidate_version]: with HA disabled the output is [panorama,
    ntp_sync, candidate_config, active_support, free_disk_space], all
    bare and in that order; with HA enabled [ha] stands between
    [active_support] and [free_disk_space].  With [candidate_version]
    the last element is [{free_disk_space: {image_version:
    candidate_version}}] instead of the bare identifier. *)
Theorem default_check_list_output firewall r a h :
  is_empty_arg (deref h r) = true →
  (truthy (candidate_version a) = false → ha_enabled firewall = false →
   (run_readiness_checks firewall r a h).1
   = Ok [PStr "panorama"; PStr "ntp_sync"; PStr "candidate_config";
         PStr "active_support"; PStr "free_disk_space"])
  ∧ (truthy (candidate_version a) = false → ha_enabled firewall = true →
     (run_readiness_checks firewall r a h).1
     = Ok [PStr "panorama"; PStr "ntp_sync"; PStr "candidate_config";
           PStr "active_support"; PStr "ha"; PStr "free_disk_space"])
  ∧ (truthy (candidate_version a) = true →
     (run_readiness_checks firewall r a h).1
     = Ok ([PStr "panorama"; PStr "ntp_sync"; PStr "candidate_config";
            PStr "active_support"]
           ++ (if ha_enabled firewall then [PStr "ha"] else [])
           ++ [PDict [("free_disk_space",
                       PDict [("image_version", str_value (candidate_version a))])]])).
Proof.
  intros Hempty. rewrite run_output. unfold working_list. rewrite Hempty.
  rewrite directives_default_check_list. unfold default_check_list.
  split_and!.
  - by intros -> ->.
  - by intros -> ->.
  - intros ->. by destruct (ha_enabled firewall).
Qed.

Lemma default_check_list_output_witness :
  is_empty_arg (deref (one_list []) (Some 1%positive)) = true
  ∧ (run_readiness_checks fw_ha (Some 1%positive) no_args (one_list [])).1
    = Ok [PStr "panorama"; PStr "ntp_sync"; PStr "candidate_config";
          PStr "active_support"; PStr "ha"; PStr "free_disk_space"].
Proof.
  split; [reflexivity|].
  exact (proj1 (proj2 (default_check_list_output fw_ha (Some 1%positive) no_args
                         (one_list []) eq_refl)) eq_refl eq_refl).
Defined.

(** ** C4: compare_snapshots follows the canonical order *)

Lemma is_named_directive_name x d :
  is_named x d = true ↔ directive_name d = Some x.
Proof.
  unfold is_named, is_bare, is_parameterized, directive_name.
  destruct d as [| | |s|l|[|[k v] [|]]]; simpl; try (split; [done|done]).
  - rewrite orb_false_r, String.eqb_eq. naive_solver.
  - rewrite String.eqb_eq. naive_solver.
Qed.

Lemma directive_name_session_stats t :
  directive_name (session_stats_directive t) = Some "session_stats".
Proof. unfold session_stats_directive. by case_match. Qed.

Lemma map_directive_name_when_in x l d :
  map directive_name (when_in x l [d])
  = if py_in x l then [directive_name d] else [].
Proof. unfold when_in. by destruct (py_in x l). Qed.

(** The names of the directives, in order. *)
Lemma compare_snapshots_names left_snapshot right_snapshot r t h :
  map directive_name (compare_snapshots left_snapshot right_snapshot r t h)
  = map Some (List.filter (λ x, py_in x (snapshot_working_list (deref h r)))
                canonical_order).
Proof.
  unfold compare_snapshots. fold (snapshot_working_list (deref h r)).
  rewrite !map_app, !map_directive_name_when_in, directive_name_session_stats.
  unfold canonical_order. simpl.
  repeat (match goal with |- context [py_in ?x ?l] => destruct (py_in x l) end;
          simpl).
  all: reflexivity.
Qed.

Lemma count_named_by_name x out :
  count_if (is_named x) out
  = occurrences x (omap id (map directive_name out)).
Proof.
  unfold occurrences. induction out as [|d out IH]; [done|].
  cbn [map count_if]. rewrite IH.
  destruct (is_named x d) eqn:Hd.
  - apply is_named_directive_name in Hd. rewrite Hd. simpl.
    by rewrite String.eqb_refl.
  - destruct (directive_name d) as [n|] eqn:Hn; simpl; [|done].
    destruct (String.eqb_spec n x) as [->|_]; [|done].
    apply is_named_directive_name in Hn. congruence.
Qed.

Lemma omap_id_map_Some {A} (l : list A) : omap id (map Some l) = l.
Proof. induction l as [|x l IH]; simpl; [done|]. by f_equal. Qed.

Lemma occurrences_filter (f : string → bool) x l :
  occurrences x (List.filter f l) = if f x then occurrences x l else 0.
Proof.
  unfold occurrences. induction l as [|y l IH]; simpl.
  - by destruct (f x).
  - destruct (String.eqb_spec y x) as [->|Hne].
    + destruct (f x) eqn:Hf; simpl; [|done].
      rewrite String.eqb_refl, IH. done.
    + destruct (f y); simpl; [|done].
      destruct (String.eqb_spec y x); [done|]. by rewrite IH.
Qed.

Lemma occurrences_canonical_order x :
  occurrences x canonical_order = if py_in x canonical_order then 1 else 0.
Proof.
  destruct (py_in x canonical_order) eqn:Hin.
  - apply py_in_true in Hin. unfold canonical_order in Hin.
    repeat (apply elem_of_cons in Hin as [->|Hin]; [reflexivity|]).
    by apply elem_of_nil in Hin.
  - apply py_in_false in Hin. by apply occurrences_zero.
Qed.

(** How often a name occurs in the output. *)
Lemma compare_snapshots_count left_snapshot right_snapshot r t h x :
  count_if (is_named x) (compare_snapshots left_snapshot right_snapshot r t h)
  = if py_in x (snapshot_working_list (deref h r)) && py_in x canonical_order
    then 1 else 0.
Proof.
  rewrite count_named_by_name, compare_snapshots_names, omap_id_map_Some,
    occurrences_filter, occurrences_canonical_order.
  by destruct (py_in x (snapshot_working_list _)), (py_in x canonical_order).
Qed.

(** The output depends on the list through membership only. *)
Lemma compare_snapshots_membership left_snapshot right_snapshot r r' t h h' :
  (∀ x, x ∈ snapshot_working_list (deref h r)
        ↔ x ∈ snapshot_working_list (deref h' r')) →
  compare_snapshots left_snapshot right_snapshot r t h
  = compare_snapshots left_snapshot right_snapshot r' t h'.
Proof.
  intros Hmem. unfold compare_snapshots.
  fold (snapshot_working_list (deref h r)).
  fold (snapshot_working_list (deref h' r')).
  assert (∀ x, py_in x (snapshot_working_list (deref h r))
               = py_in x (snapshot_working_list (deref h' r'))) as Hin.
  { intros x. apply eq_true_iff_eq. rewrite !py_in_true. apply Hmem. }
  unfold when_in. by rewrite !Hin.
Qed.

(** C4.  For every snapshot list: the names of the directives are the
    identifiers of the fixed list [nics, routes, license, arp_table,
    content_version, session_stats, ip_sec_tunnels, bgp_peers] that occur
    in the (possibly defaulted) snapshot list, in the order of the fixed
    list; each such identifier has exactly one directive, however often
    the caller names it; an identifier outside the fixed list has none;
    and reordering the caller's list does not change the output. *)
Theorem compare_snapshots_canonical left_snapshot right_snapshot r t h :
  let given := snapshot_working_list (deref h r) in
  let out := compare_snapshots left_snapshot right_snapshot r t h in
  map directive_name out
  = map Some (List.filter (λ x, py_in x given) canonical_order)
  ∧ (∀ x, x ∈ canonical_order → x ∈ given → count_if (is_named x) out = 1)
  ∧ (∀ x, x ∉ canonical_order → count_if (is_named x) out = 0)
  ∧ (∀ x, x ∉ given → count_if (is_named x) out = 0)
  ∧ (∀ cl cl' r' h',
       deref h r = Some cl → deref h' r' = Some cl' → cl ≡ₚ cl' →
       compare_snapshots left_snapshot right_snapshot r' t h' = out).
Proof.
  intros given out. subst given out. split_and!.
  - apply compare_snapshots_names.
  - intros x Hc Hg. rewrite compare_snapshots_count.
    apply py_in_true in Hc, Hg. by rewrite Hc, Hg.
  - intros x Hc. rewrite compare_snapshots_count.
    apply py_in_false in Hc. by rewrite Hc, andb_false_r.
  - intros x Hg. rewrite compare_snapshots_count.
    apply py_in_false in Hg. by rewrite Hg.
  - intros cl cl' r' h' Hcl Hcl' Hperm. symmetry.
    apply compare_snapshots_membership. intros x.
    rewrite Hcl, Hcl'. unfold snapshot_working_list.
    destruct cl as [|y cl].
    + apply Permutation_nil_l in Hperm as ->. done.
    + destruct cl' as [|y' cl'].
      * by apply Permutation_nil_r in Hperm.
      * simpl. by rewrite Hperm.
Qed.

Lemma compare_snapshots_canonical_witness :
  "nics" ∈ snapshot_working_list
             (deref (one_list ["bgp_peers"; "unknown"; "nics"; "nics"]) (Some 1%positive))
  ∧ count_if (is_named "nics")
      (compare_snapshots PNone PNone (Some 1%positive) PNone
         (one_list ["bgp_peers"; "unknown"; "nics"; "nics"])) = 1
  ∧ ("unknown" ∉ canonical_order)
  ∧ count_if (is_named "unknown")
      (compare_snapshots PNone PNone (Some 1%positive) PNone
         (one_list ["bgp_peers"; "unknown"; "nics"; "nics"])) = 0
  ∧ compare_snapshots PNone PNone (Some 2%positive) PNone
      {[ 2%positive := ["nics"; "unknown"; "bgp_peers"; "nics"] ]}
    = compare_snapshots PNone PNone (Some 1%positive) PNone
        (one_list ["bgp_peers"; "unknown"; "nics"; "nics"]).
Proof.
  assert ("nics" ∈ canonical_order) as Hc by (apply py_in_true; reflexivity).
  assert ("nics" ∈ snapshot_working_list
                     (deref (one_list ["bgp_peers"; "unknown"; "nics"; "nics"])
                        (Some 1%positive))) as Hg
    by (apply py_in_true; reflexivity).
  assert ("unknown" ∉ canonical_order) as Hu by (apply py_in_false; reflexivity).
  assert (["bgp_peers"; "unknown"; "nics"; "nics"]
          ≡ₚ ["nics"; "unknown"; "bgp_peers"; "nics"]) as Hperm.
  { apply (Permutation_trans (l' := ["nics"; "unknown"; "bgp_peers"; "nics"]));
      [|reflexivity].
    change ((["bgp_peers"; "unknown"] ++ "nics" :: ["nics"])
            ≡ₚ ("nics" :: ["unknown"; "bgp_peers"] ++ ["nics"])).
    rewrite <- Permutation_middle. constructor.
    apply Permutation_app_tail. constructor. }
  destruct (compare_snapshots_canonical PNone PNone (Some 1%positive) PNone
              (one_list ["bgp_peers"; "unknown"; "nics"; "nics"]))
    as (_ & Hone & Hout & _ & Hord).
  split_and!; [exact Hg | exact (Hone _ Hc Hg) | exact Hu | exact (Hout _ Hu) |].
  exact (Hord _ _ (Some 2%positive)
           {[ 2%positive := ["nics"; "unknown"; "bgp_peers"; "nics"] ]}
           eq_refl eq_refl Hperm).
Defined.

(** ** C5: the session_stats thresholds *)

Lemma session_stats_directive_eq t :
  session_stats_directive t
  = session_stats_with (if is_positive_int t then t else PInt 10).
Proof.
  unfold session_stats_directive, session_stats_with, is_positive_int.
  by case_match.
Qed.

Lemma session_stats_in_output left_snapshot right_snapshot r t h :
  "session_stats" ∈ snapshot_working_list (deref h r) →
  session_stats_directive t ∈ compare_snapshots left_snapshot right_snapshot r t h.
Proof.
  intros Hin. apply py_in_true in Hin. unfold compare_snapshots.
  fold (snapshot_working_list (deref h r)).
  do 5 (apply elem_of_app; right). apply elem_of_app. left.
  unfold when_in. rewrite Hin. by left.
Qed.

(** C5.  When [session_stats] is in the (possibly defaulted) list, the
    output holds exactly one [session_stats] directive,
    [{session_stats: {thresholds: [{num-max: T}, {num-tcp: T}]}}], with
    [T] the argument [session_stats_threshold] when it is an integer
    greater than zero and 10 otherwise; an argument that is [None], zero,
    negative or not an integer gives 10.  The function has no failing
    path: it returns a list for every argument. *)
Theorem session_stats_threshold_or_default left_snapshot right_snapshot r t h :
  "session_stats" ∈ snapshot_working_list (deref h r) →
  let out := compare_snapshots left_snapshot right_snapshot r t h in
  session_stats_with (if is_positive_int t then t else PInt 10) ∈ out
  ∧ count_if (is_named "session_stats") out = 1
  ∧ (match t with
     | PInt z => (z <= 0)%Z
     | PBool b => b = false
     | PNone | PStr _ | PList _ | PDict _ => True
     end → session_stats_with (PInt 10) ∈ out)
  ∧ (match t with
     | PInt z => (0 < z)%Z
     | _ => False
     end → session_stats_with t ∈ out).
Proof.
  intros Hin out. subst out.
  pose proof (session_stats_in_output left_snapshot right_snapshot _ t _ Hin) as Hd.
  rewrite session_stats_directive_eq in Hd.
  split_and!.
  - exact Hd.
  - rewrite compare_snapshots_count. apply py_in_true in Hin. by rewrite Hin.
  - intros Ht. replace (is_positive_int t) with false in Hd; [done|].
    unfold is_positive_int. destruct t as [|[]|z| | |]; simpl; try done.
    symmetry. apply Z.ltb_ge. done.
  - intros Ht. replace (is_positive_int t) with true in Hd; [done|].
    unfold is_positive_int. destruct t as [|[]|z| | |]; simpl; try done.
    symmetry. by apply Z.ltb_lt.
Qed.

Lemma session_stats_threshold_or_default_witness :
  "session_stats" ∈ snapshot_working_list (deref ∅ None)
  ∧ session_stats_with (PInt 10) ∈ compare_snapshots PNone PNone None (PInt (-3)) ∅
  ∧ session_stats_with (PInt 10) ∈ compare_snapshots PNone PNone None (PStr "25") ∅
  ∧ session_stats_with (PInt 25) ∈ compare_snapshots PNone PNone None (PInt 25) ∅.
Proof.
  assert ("session_stats" ∈ snapshot_working_list (deref ∅ None)) as Hin
    by (apply py_in_true; reflexivity).
  split_and!; [exact Hin | | |].
  - refine (proj1 (proj2 (proj2
      (session_stats_threshold_or_default PNone PNone None (PInt (-3)) ∅ Hin))) _).
    simpl. lia.
  - exact (proj1 (proj2 (proj2
      (session_stats_threshold_or_default PNone PNone None (PStr "25") ∅ Hin))) I).
  - refine (proj2 (proj2 (proj2
      (session_stats_threshold_or_default PNone PNone None (PInt 25) ∅ Hin))) _).
    simpl. lia.
Defined.

(** ** C6: session descriptors *)

Lemma parse_session_three s src dst port :
  str_split "/" s = [src; dst; port] →
  parse_session s
  = Ok (PDict [("source", PStr src); ("destination", PStr dst); ("dest_port", PStr port)]).
Proof. unfold parse_session. by intros ->. Qed.

Lemma parse_session_raises s :
  length (str_split "/" s) ≠ 3 → ∃ msg, parse_session s = Raise (ValueError msg).
Proof.
  unfold parse_session. intros Hlen.
  destruct (str_split "/" s) as [|f1 [|f2 [|f3 [|f4 fs]]]]; simpl in Hlen;
    try done; eauto.
Qed.

Lemma session_directive_raises a cl s :
  "session_exist" ∈ cl → check_session_exists a = Some s → s ≠ EmptyString →
  length (str_split "/" s) ≠ 3 →
  session_directive a cl
  = Raise (ValueError
             (s +:+ " is not a valid session string. Must be 'source/destination/port'.")).
Proof.
  intros Hin Hs Hne Hlen. unfold session_directive.
  apply py_in_true in Hin. rewrite Hin, Hs.
  destruct s as [|c s]; [done|].
  by destruct (parse_session_raises _ Hlen) as [msg ->].
Qed.

(** C6, counterexample.  The empty string has one field, yet line 160
    takes it for an absent argument: nothing is parsed, nothing raised,
    and the check is dropped. *)
Lemma empty_session_string_not_rejected :
  length (str_split "/" EmptyString) = 1
  ∧ (run_readiness_checks fw_standalone (Some 1%positive) (args_session EmptyString)
       (one_list ["session_exist"])).1
    = Ok [PStr "free_disk_space"].
Proof. split; vm_compute; reflexivity. Qed.

(** C6, as amended.  A session string with exactly three slash-delimited
    fields parses to [{source, destination, dest_port}], so
    ["10.10.10.10/8.8.8.8/443"] gives [{source: "10.10.10.10",
    destination: "8.8.8.8", dest_port: "443"}]; [parse_session] raises
    [ValueError] for every other field count; and for every string that
    is not empty and has a field count other than three,
    [run_readiness_checks] with [session_exist] in the check list and
    that string as [check_session_exists] raises the [ValueError] whose
    message starts with the string, and returns no directive list. *)
Theorem session_string_parsed_or_rejected :
  parse_session "10.10.10.10/8.8.8.8/443"
  = Ok (PDict [("source", PStr "10.10.10.10"); ("destination", PStr "8.8.8.8");
               ("dest_port", PStr "443")])
  ∧ (∀ s src dst port,
       str_split "/" s = [src; dst; port] →
       parse_session s
       = Ok (PDict [("source", PStr src); ("destination", PStr dst);
                    ("dest_port", PStr port)]))
  ∧ (∀ s, length (str_split "/" s) ≠ 3 →
          ∃ msg, parse_session s = Raise (ValueError msg))
  ∧ (∀ firewall r a h cl s,
       deref h r = Some cl → "session_exist" ∈ cl →
       check_session_exists a = Some s → s ≠ EmptyString →
       length (str_split "/" s) ≠ 3 →
       (run_readiness_checks firewall r a h).1
       = Raise (ValueError
                  (s +:+ " is not a valid session string. Must be 'source/destination/port'."))).
Proof.
  split_and!.
  - reflexivity.
  - apply parse_session_three.
  - apply parse_session_raises.
  - intros firewall r a h cl s Hcl Hin Hs Hne Hlen.
    rewrite (run_on_caller_list _ _ _ _ _ Hcl (elem_of_not_nil _ _ Hin)).
    unfold directives. by rewrite (session_directive_raises _ _ _ Hin Hs Hne Hlen).
Qed.

Lemma session_string_parsed_or_rejected_witness :
  length (str_split "/" "10.10.10.10/8.8.8.8") ≠ 3
  ∧ (run_readiness_checks fw_standalone (Some 1%positive)
       (args_session "10.10.10.10/8.8.8.8")
       (one_list ["ntp_sync"; "session_exist"])).1
    = Raise (ValueError
               "10.10.10.10/8.8.8.8 is not a valid session string. Must be 'source/destination/port'.").
Proof.
  assert ("session_exist" ∈ ["ntp_sync"; "session_exist"]) as Hin
    by (apply py_in_true; reflexivity).
  assert (length (str_split "/" "10.10.10.10/8.8.8.8") ≠ 3) as Hlen
    by (vm_compute; lia).
  split; [exact Hlen|].
  exact (proj2 (proj2 (proj2 session_string_parsed_or_rejected))
           fw_standalone (Some 1%positive) (args_session "10.10.10.10/8.8.8.8")
           (one_list ["ntp_sync"; "session_exist"]) ["ntp_sync"; "session_exist"]
           "10.10.10.10/8.8.8.8" eq_refl Hin eq_refl ltac:(discriminate) Hlen).
Defined.

(** ** C7: the ARP entry *)


Lemma elem_of_rename_check_other old new l y :
  y ≠ old → y ∈ l → y ∈ rename_check old new l.
Proof.
  intros Hne Hin. unfold rename_check. destruct (py_in old l); [|done].
  apply elem_of_app. left. fold (remove_first old l).
  by apply elem_of_remove_first_ne.
Qed.


(** ** Argument dicts and keyword binding *)

Lemma args_lookup_cons k k' v (d : list (string * string)) :
  ((k', v) :: d) !! k = if String.eqb k' k then Some v else d !! k.
Proof. done. Qed.

Lemma args_delete_cons k k' v (d : list (string * string)) :
  delete k ((k', v) :: d)
  = if String.eqb k' k then delete k d else (k', v) :: delete k d.
Proof.
  unfold delete, args_delete, args_del. simpl. by destruct (String.eqb k' k).
Qed.

Lemma args_lookup_delete_ne k k' (d : list (string * string)) :
  k ≠ k' → delete k d !! k' = d !! k'.
Proof.
  intros Hne. induction d as [|[k0 v0] d IH]; [done|].
  rewrite args_delete_cons, !args_lookup_cons.
  destruct (String.eqb_spec k0 k) as [->|Hk].
  - rewrite IH. destruct (String.eqb_spec k k'); [congruence|done].
  - rewrite args_lookup_cons, IH. done.
Qed.

Lemma args_lookup_delete_eq k (d : list (string * string)) : delete k d !! k = None.
Proof.
  induction d as [|[k0 v0] d IH]; [done|]. rewrite args_delete_cons.
  destruct (String.eqb_spec k0 k) as [->|Hk]; [done|].
  rewrite args_lookup_cons. destruct (String.eqb_spec k0 k); [congruence|done].
Qed.

Lemma args_dom_cons k v (d : list (string * string)) :
  dom ((k, v) :: d) =@{gset string} {[ k ]} ∪ dom d.
Proof. done. Qed.

Lemma args_elem_of_dom k (d : list (string * string)) :
  k ∈ dom d ↔ is_Some (d !! k).
Proof.
  induction d as [|[k0 v0] d IH].
  - split; [intros []%not_elem_of_empty|by intros [? ?]].
  - rewrite args_dom_cons, args_lookup_cons, elem_of_union, elem_of_singleton, IH.
    destruct (String.eqb_spec k0 k) as [->|Hk]; [split; [by eauto|by left]|].
    split; [|by right]. by intros [?|?].
Qed.

Lemma args_elem_of_dom_delete k k' (d : list (string * string)) :
  k' ∈ dom (delete k d) ↔ k' ∈ dom d ∧ k' ≠ k.
Proof.
  rewrite !args_elem_of_dom. destruct (decide (k' = k)) as [->|Hne].
  - rewrite args_lookup_delete_eq. split; [by intros [? ?]|by intros [_ ?]].
  - rewrite args_lookup_delete_ne by done. split; [done|by intros [? _]].
Qed.

Lemma args_dom_empty (d : list (string * string)) :
  dom d ⊆ (∅ : gset string) ↔ d = [].
Proof.
  split; [|by intros ->]. destruct d as [|[k v] d]; [done|].
  intros Hsub. exfalso. apply (not_elem_of_empty (C:=gset string) k), Hsub.
  rewrite args_dom_cons. apply elem_of_union_l. by apply elem_of_singleton.
Qed.

(** Binding succeeds exactly when every key is a free keyword. *)
Lemma keyword_error_None f given keywords (kwargs : list (string * string)) :
  (∀ k, k ∈ given → k ∉ keywords) →
  keyword_error f given keywords kwargs = None ↔ dom kwargs ⊆ keywords.
Proof.
  intros Hgiven. induction kwargs as [|[k v] kwargs IH]; simpl.
  - split; [|done]. intros _ k []%not_elem_of_empty.
  - rewrite args_dom_cons. destruct (py_in k given) eqn:Hk.
    + apply py_in_true in Hk. split; [done|]. intros Hsub. exfalso.
      apply (Hgiven k Hk), Hsub, elem_of_union_l. by apply elem_of_singleton.
    + case_bool_decide as Hkw.
      * rewrite IH. split.
        -- intros Hsub k' [->%elem_of_singleton|?]%elem_of_union; [done|by apply Hsub].
        -- intros Hsub k' Hk'. by apply Hsub, elem_of_union_r.
      * split; [done|]. intros Hsub. exfalso.
        apply Hkw, Hsub, elem_of_union_l. by apply elem_of_singleton.
Qed.

(** The exception names the first key that cannot be bound. *)
Lemma keyword_error_first f given keywords before k v after :
  (∀ k, k ∈ given → k ∉ keywords) →
  dom before ⊆ keywords → k ∉ keywords →
  keyword_error f given keywords (before ++ (k, v) :: after)
  = Some (TypeError
            (f +:+ (if py_in k given
                    then "() got multiple values for argument '"
                    else "() got an unexpected keyword argument '")
               +:+ k +:+ "'")).
Proof.
  intros Hgiven Hbefore Hk. induction before as [|[k0 v0] before IH]; simpl.
  - destruct (py_in k given); [done|]. by rewrite bool_decide_false.
  - assert (k0 ∈ keywords) as Hk0.
    { apply Hbefore. rewrite args_dom_cons. apply elem_of_union_l.
      by apply elem_of_singleton. }
    destruct (py_in k0 given) eqn:Hg.
    + apply py_in_true in Hg. by destruct (Hgiven k0 Hg).
    + rewrite bool_decide_true by done. apply IH.
      intros k' Hk'. apply Hbefore. rewrite args_dom_cons. by apply elem_of_union_r.
Qed.

Lemma readiness_given_not_keywords k :
  k ∈ ["firewall"; "check_list"] → k ∉ readiness_keywords.
Proof.
  intros Hk. repeat (apply elem_of_cons in Hk as [->|Hk]; [by vm_compute|]).
  by apply elem_of_nil in Hk.
Qed.

Section CommandProperties.
Variable argToList : option string → list string.
Variable arg_to_number : option string → result (option Z).
Variable is_ip_valid : string → bool.

Local Abbreviation command :=
  (command_run_readiness_checks argToList arg_to_number is_ip_valid).

(** The command once line 332 and line 345 have passed. *)
Lemma command_spec firewall args serial n :
  args !! "firewall_serial" = Some serial →
  arg_to_number (args !! "dp_mp_clock_diff") = Ok n →
  command firewall args
  = let call :=
      match keyword_error "run_readiness_checks" ["firewall"; "check_list"]
              readiness_keywords (remaining_args args) with
      | Some e => Raise e
      | None =>
          directives (keyword_args args n)
            (working_list firewall
               (Some (renamed_check_list (argToList (args !! "check_list")))))
      end in
    match args !! "arp_entry_exists" with
    | Some (String c v) =>
        if is_ip_valid (String c v) then call
        else Raise (ValueError (String c v +:+ " is not a valid IPv4 address."))
    | _ => call
    end.
Proof.
  intros Hserial Hnum. unfold command_run_readiness_checks.
  rewrite Hserial.
  rewrite !args_lookup_delete_ne by done. rewrite Hnum.
  fold (renamed_check_list (argToList (args !! "check_list"))).
  fold (remaining_args args). fold (keyword_args args n).
  rewrite run_output. unfold deref. simpl. rewrite lookup_singleton_eq.
  destruct (args !! "arp_entry_exists") as [[|c v]|]; try done.
  by destruct (is_ip_valid (String c v)).
Qed.


(** The command returns only after line 332 and line 345 have passed. *)
Lemma command_Ok_passed firewall args out :
  command firewall args = Ok out →
  ∃ serial n, args !! "firewall_serial" = Some serial
              ∧ arg_to_number (args !! "dp_mp_clock_diff") = Ok n.
Proof.
  intros Hout. unfold command_run_readiness_checks in Hout.
  destruct (args !! "firewall_serial") as [serial|]; [|done].
  rewrite !args_lookup_delete_ne in Hout by done.
  destruct (arg_to_number (args !! "dp_mp_clock_diff")) as [n|e]; [|done]. eauto.
Qed.

End CommandProperties.



(** ** What a run leaves alone *)



(** ** C10: the caller's list object *)

(** How often an identifier that lines 141-179 remove is left. *)
Lemma occurrences_bare_checks_removed x a cl :
  x ∈ ["planes_clock_sync"; "ip_sec_tunnel_status"; "session_exist";
       "arp_entry_exists"] →
  occurrences x (bare_checks a cl) = occurrences x cl - 1.
Proof.
  intros Hx. unfold bare_checks, after_ip_sec_tunnel_status.
  assert (occurrences x (after_free_disk_space a cl) = occurrences x cl) as Hfds.
  { rewrite occurrences_after_free_disk_space.
    repeat (apply elem_of_cons in Hx as [->|Hx];
            [rewrite !andb_false_r; simpl; lia|]).
    by apply elem_of_nil in Hx. }
  apply elem_of_cons in Hx as [->|Hx].
  { rewrite !occurrences_remove_first_ne by done.
    by rewrite occurrences_remove_first, Hfds. }
  apply elem_of_cons in Hx as [->|Hx].
  { rewrite !occurrences_remove_first_ne by done.
    rewrite occurrences_remove_first.
    by rewrite occurrences_remove_first_ne, Hfds. }
  apply elem_of_cons in Hx as [->|Hx].
  { rewrite occurrences_remove_first_ne by done.
    rewrite occurrences_remove_first.
    by rewrite !occurrences_remove_first_ne, Hfds. }
  apply elem_of_cons in Hx as [->|Hx].
  { rewrite occurrences_remove_first.
    by rewrite !occurrences_remove_first_ne, Hfds. }
  by apply elem_of_nil in Hx.
Qed.

(** Nothing to remove and nothing to append: the list is left as it was. *)
Lemma bare_checks_unchanged a cl :
  truthy (candidate_version a) = true →
  py_in "content_version" cl && truthy (min_content_version a) = false →
  py_in "planes_clock_sync" cl = false →
  py_in "ip_sec_tunnel_status" cl = false →
  py_in "session_exist" cl = false →
  py_in "arp_entry_exists" cl = false →
  bare_checks a cl = cl.
Proof.
  intros Hc Hcv Hp Hi Hs Ha.
  unfold bare_checks, after_ip_sec_tunnel_status, after_free_disk_space,
    after_content_version.
  rewrite Hc, Hcv. apply py_in_false in Hp, Hi, Hs, Ha.
  rewrite (remove_first_not_in "planes_clock_sync" cl Hp).
  rewrite (remove_first_not_in "ip_sec_tunnel_status" cl Hi).
  rewrite (remove_first_not_in "session_exist" cl Hs).
  exact (remove_first_not_in "arp_entry_exists" cl Ha).
Qed.

Lemma bare_checks_changed a cl :
  bare_checks a cl ≠ cl
  ↔ truthy (candidate_version a) = false
    ∨ ("content_version" ∈ cl ∧ truthy (min_content_version a) = true)
    ∨ "planes_clock_sync" ∈ cl
    ∨ "ip_sec_tunnel_status" ∈ cl
    ∨ "session_exist" ∈ cl
    ∨ "arp_entry_exists" ∈ cl.
Proof.
  split.
  - intros Hne.
    destruct (truthy (candidate_version a)) eqn:Hc; [|by left].
    destruct (py_in "content_version" cl && truthy (min_content_version a)) eqn:Hcv.
    { apply andb_true_iff in Hcv as [Hin%py_in_true Ht]. right. left. done. }
    destruct (py_in "planes_clock_sync" cl) eqn:Hp.
    { apply py_in_true in Hp. tauto. }
    destruct (py_in "ip_sec_tunnel_status" cl) eqn:Hi.
    { apply py_in_true in Hi. tauto. }
    destruct (py_in "session_exist" cl) eqn:Hs.
    { apply py_in_true in Hs. tauto. }
    destruct (py_in "arp_entry_exists" cl) eqn:Ha.
    { apply py_in_true in Ha. tauto. }
    exfalso. apply Hne. by apply bare_checks_unchanged.
  - intros Hcase Heq.
    assert (∀ x, occurrences x (bare_checks a cl) = occurrences x cl) as Hocc
      by (intros x; by rewrite Heq).
    assert (∀ x, x ∈ ["planes_clock_sync"; "ip_sec_tunnel_status"; "session_exist";
                      "arp_entry_exists"] → x ∉ cl) as Hrm.
    { intros x Hx Hin. apply occurrences_pos in Hin.
      specialize (Hocc x). rewrite occurrences_bare_checks_removed in Hocc by done.
      lia. }
    pose proof (Hocc "free_disk_space") as Hfds.
    pose proof (Hocc "content_version") as Hcv.
    rewrite occurrences_bare_checks, occurrences_after_free_disk_space in Hfds, Hcv
      by done.
    rewrite andb_false_r in Hfds, Hcv. simpl in Hfds, Hcv.
    destruct Hcase as [Hc|[[Hin Ht]|[Hin|[Hin|[Hin|Hin]]]]].
    + rewrite Hc in Hfds. simpl in Hfds. lia.
    + pose proof Hin as Hpos. apply occurrences_pos in Hpos.
      apply py_in_true in Hin. rewrite Hin, Ht in Hcv. simpl in Hcv. lia.
    + apply (Hrm "planes_clock_sync"); [|done]. apply py_in_true. reflexivity.
    + apply (Hrm "ip_sec_tunnel_status"); [|done]. apply py_in_true. reflexivity.
    + apply (Hrm "session_exist"); [|done]. apply py_in_true. reflexivity.
    + apply (Hrm "arp_entry_exists"); [|done]. apply py_in_true. reflexivity.
Qed.

(** C10, counterexample.  With [candidate_version] supplied and none of
    the converted identifiers in the list, the caller's list object holds
    after the call what it held before; and an empty list of the caller
    is never written, the defaults go to a new list. *)
Lemma caller_list_left_unchanged :
  (run_readiness_checks fw_standalone (Some 1%positive) args_candidate_version
     (one_list ["panorama"; "ntp_sync"])).2 !! 1%positive
  = Some ["panorama"; "ntp_sync"]
  ∧ (run_readiness_checks fw_standalone (Some 1%positive) no_args
       (one_list [])).2 !! 1%positive
    = Some [].
Proof. split; vm_compute; reflexivity. Qed.

(** C10, as amended.  For a caller's list that is not empty,
    [run_readiness_checks] works on the caller's list object: after a
    call that returns, that object holds the list passed in with the
    first occurrence removed of [content_version] (when
    [min_content_version] is supplied), [planes_clock_sync],
    [ip_sec_tunnel_status], [session_exist] and [arp_entry_exists], and
    with [free_disk_space] appended when [candidate_version] is absent,
    which are the bare identifiers of the output; no other list object
    changes.  It differs from the list passed in exactly when
    [candidate_version] is absent or one of those identifiers was
    removed.  An empty list of the caller is left as it is. *)
Theorem caller_list_mutated_in_place firewall l a h cl out :
  h !! l = Some cl → cl ≠ [] →
  (run_readiness_checks firewall (Some l) a h).1 = Ok out →
  (run_readiness_checks firewall (Some l) a h).2
  = <[l := bare_checks a cl]> h
  ∧ bare_checks a cl
    = remove_first "arp_entry_exists"
        (remove_first "session_exist"
           (remove_first "ip_sec_tunnel_status"
              (remove_first "planes_clock_sync"
                 ((if truthy (min_content_version a)
                   then remove_first "content_version" cl else cl)
                  ++ (if truthy (candidate_version a)
                      then [] else ["free_disk_space"])))))
  ∧ (∃ custom, out = map PStr (bare_checks a cl) ++ custom)
  ∧ (bare_checks a cl ≠ cl
     ↔ truthy (candidate_version a) = false
       ∨ ("content_version" ∈ cl ∧ truthy (min_content_version a) = true)
       ∨ "planes_clock_sync" ∈ cl
       ∨ "ip_sec_tunnel_status" ∈ cl
       ∨ "session_exist" ∈ cl
       ∨ "arp_entry_exists" ∈ cl)
  ∧ (∀ r, is_empty_arg (deref h r) = true →
          (run_readiness_checks firewall r a h).2 = h).
Proof.
  intros Hl Hne Hrun. rewrite run_readiness_checks_spec in Hrun |- *.
  cbn [fst snd] in *. unfold working_list, deref in Hrun.
  cbn [mbind option_bind] in Hrun. rewrite Hl in Hrun |- *.
  destruct cl as [|x cl]; [done|]. cbn [is_empty_arg default] in *.
  unfold id in *. split_and!.
  - unfold list_after_call. unfold directives in Hrun.
    by destruct (session_directive a (x :: cl)).
  - unfold bare_checks, after_ip_sec_tunnel_status, after_free_disk_space,
      after_content_version.
    destruct (py_in "content_version" (x :: cl)) eqn:Hcv; cbn [andb].
    + by destruct (truthy (min_content_version a)), (truthy (candidate_version a));
        rewrite ?app_nil_r.
    + apply py_in_false in Hcv. rewrite (remove_first_not_in _ _ Hcv).
      by destruct (truthy (min_content_version a)), (truthy (candidate_version a));
        rewrite ?app_nil_r.
  - apply directives_Ok in Hrun as (ds & _ & ->). eauto.
  - apply bare_checks_changed.
  - intros r Hempty. rewrite run_readiness_checks_spec. cbn [snd].
    destruct r as [l'|]; [|done]. unfold deref in Hempty.
    cbn [mbind option_bind] in Hempty. by rewrite Hempty.
Qed.

Lemma caller_list_mutated_in_place_witness :
  one_list ["ntp_sync"; "planes_clock_sync"] !! 1%positive
  = Some ["ntp_sync"; "planes_clock_sync"]
  ∧ (run_readiness_checks fw_standalone (Some 1%positive) args_clock_diff
       (one_list ["ntp_sync"; "planes_clock_sync"])).2
    = <[1%positive := bare_checks args_clock_diff ["ntp_sync"; "planes_clock_sync"]]>
        (one_list ["ntp_sync"; "planes_clock_sync"])
  ∧ bare_checks args_clock_diff ["ntp_sync"; "planes_clock_sync"]
    = ["ntp_sync"; "free_disk_space"].
Proof.
  split_and!; [reflexivity| |reflexivity].
  exact (proj1 (caller_list_mutated_in_place fw_standalone 1%positive args_clock_diff
                  (one_list ["ntp_sync"; "planes_clock_sync"])
                  ["ntp_sync"; "planes_clock_sync"] _
                  eq_refl ltac:(discriminate) eq_refl)).
Defined.

(** * Further properties *)

(** ** parse_session and the fields of a string *)

Lemma str_split_not_nil sep s : str_split sep s ≠ [].
Proof. destruct s as [|c s]; simpl; [done|]. by repeat case_match. Qed.

Lemma length_str_split sep s : length (str_split sep s) = S (count_char sep s).
Proof.
  induction s as [|c s IH]; simpl; [done|].
  destruct (Ascii.eqb c sep); simpl; [by rewrite IH|].
  destruct (str_split sep s) as [|f fs] eqn:Hs; [by apply str_split_not_nil in Hs|].
  simpl in *. done.
Qed.

Lemma str_join_cons sep f g fs :
  str_join sep (f :: g :: fs) = f +:+ String sep (str_join sep (g :: fs)).
Proof. done. Qed.

Lemma str_join_split sep s : str_join sep (str_split sep s) = s.
Proof.
  induction s as [|c s IH]; simpl; [done|].
  destruct (Ascii.eqb_spec c sep) as [->|Hne].
  - destruct (str_split sep s) as [|f fs] eqn:Hs; [by apply str_split_not_nil in Hs|].
    rewrite str_join_cons, IH. done.
  - destruct (str_split sep s) as [|f fs] eqn:Hs; [by apply str_split_not_nil in Hs|].
    destruct fs as [|g fs]; simpl in *; by rewrite <- IH.
Qed.

Lemma str_split_fields_clean sep s :
  Forall (λ f, count_char sep f = 0) (str_split sep s).
Proof.
  induction s as [|c s IH]; simpl; [by repeat constructor|].
  destruct (Ascii.eqb c sep) eqn:Hc; [by constructor|].
  destruct (str_split sep s) as [|f fs]; [repeat constructor; simpl; by rewrite Hc|].
  inversion IH; subst. constructor; [|done]. simpl. by rewrite Hc.
Qed.

Lemma str_split_clean sep f : count_char sep f = 0 → str_split sep f = [f].
Proof.
  induction f as [|c f IH]; simpl; [done|].
  destruct (Ascii.eqb c sep); [done|]. intros Hf. by rewrite (IH Hf).
Qed.

Lemma str_split_append sep f s :
  count_char sep f = 0 →
  str_split sep (f +:+ String sep s) = f :: str_split sep s.
Proof.
  induction f as [|c f IH]; simpl.
  - intros _. by rewrite Ascii.eqb_refl.
  - destruct (Ascii.eqb c sep); [done|]. intros Hf. by rewrite (IH Hf).
Qed.

(** X1.  [parse_session] accepts a string exactly when it holds two
    slashes; what stands between them is not looked at. *)
Theorem parse_session_accepts_two_slashes s :
  (∃ v, parse_session s = Ok v) ↔ count_char "/" s = 2.
Proof.
  pose proof (length_str_split "/" s) as Hlen. unfold parse_session.
  destruct (str_split "/" s) as [|f1 [|f2 [|f3 [|f4 fs]]]]; simpl in Hlen;
    split; try lia; try (intros [v Hv]; discriminate Hv); eauto.
Qed.

(** X2.  Three fields without a slash, joined by slashes, parse back to
    these three fields. *)
Theorem parse_session_of_joined_fields src dst port :
  count_char "/" src = 0 → count_char "/" dst = 0 → count_char "/" port = 0 →
  parse_session (src +:+ String "/" (dst +:+ String "/" port))
  = Ok (PDict [("source", PStr src); ("destination", PStr dst);
               ("dest_port", PStr port)]).
Proof.
  intros Hs Hd Hp. unfold parse_session.
  by rewrite !str_split_append, (str_split_clean _ _ Hp).
Qed.

Lemma parse_session_of_joined_fields_witness :
  count_char "/" "10.10.10.10" = 0
  ∧ parse_session ("10.10.10.10" +:+ String "/" ("any" +:+ String "/" "https"))
    = Ok (PDict [("source", PStr "10.10.10.10"); ("destination", PStr "any");
                 ("dest_port", PStr "https")]).
Proof.
  split; [reflexivity|].
  exact (parse_session_of_joined_fields "10.10.10.10" "any" "https"
           eq_refl eq_refl eq_refl).
Defined.

(** X3.  What [parse_session] returns holds the whole string: the three
    fields, none with a slash in it, joined by slashes give the argument
    back. *)
Theorem parse_session_fields_rejoin s v :
  parse_session s = Ok v →
  ∃ src dst port,
    v = PDict [("source", PStr src); ("destination", PStr dst);
               ("dest_port", PStr port)]
    ∧ s = src +:+ String "/" (dst +:+ String "/" port)
    ∧ count_char "/" src = 0 ∧ count_char "/" dst = 0 ∧ count_char "/" port = 0.
Proof.
  unfold parse_session. intros Hv.
  pose proof (str_join_split "/" s) as Hjoin.
  pose proof (str_split_fields_clean "/" s) as Hclean.
  destruct (str_split "/" s) as [|f1 [|f2 [|f3 [|f4 fs]]]]; try discriminate Hv.
  injection Hv as <-. exists f1, f2, f3.
  inversion Hclean as [|? ? H1 Hc2]; subst.
  inversion Hc2 as [|? ? H2 Hc3]; subst.
  inversion Hc3 as [|? ? H3 _]; subst.
  split_and!; try done; by rewrite <- Hjoin.
Qed.

Lemma parse_session_fields_rejoin_witness :
  parse_session "10.10.10.10/8.8.8.8/443"
  = Ok (PDict [("source", PStr "10.10.10.10"); ("destination", PStr "8.8.8.8");
               ("dest_port", PStr "443")])
  ∧ ∃ src dst port,
      PDict [("source", PStr "10.10.10.10"); ("destination", PStr "8.8.8.8");
             ("dest_port", PStr "443")]
      = PDict [("source", PStr src); ("destination", PStr dst);
               ("dest_port", PStr port)]
      ∧ "10.10.10.10/8.8.8.8/443" = src +:+ String "/" (dst +:+ String "/" port)
      ∧ count_char "/" src = 0 ∧ count_char "/" dst = 0 ∧ count_char "/" port = 0.
Proof.
  split; [reflexivity|].
  exact (parse_session_fields_rejoin "10.10.10.10/8.8.8.8/443" _ eq_refl).
Defined.

(** ** run_readiness_checks: the other checks *)

Lemma count_parameterized_ip_sec_tunnel_status a cl out :
  directives a cl = Ok out →
  count_if (is_parameterized "ip_sec_tunnel_status") out
  = if py_in "ip_sec_tunnel_status" cl && truthy (ipsec_tunnel_status a)
    then 1 else 0.
Proof. intros (ds & Hs & ->)%directives_Ok. count_parameterized Hs. lia. Qed.

Lemma count_parameterized_arp_entry_exist a cl out :
  directives a cl = Ok out →
  count_if (is_parameterized "arp_entry_exist") out
  = if py_in "arp_entry_exists" cl && truthy (arp_entry_exists a) then 1 else 0.
Proof. intros (ds & Hs & ->)%directives_Ok. count_parameterized Hs. lia. Qed.

Lemma count_parameterized_arp_entry_exists a cl out :
  directives a cl = Ok out →
  count_if (is_parameterized "arp_entry_exists") out = 0.
Proof. intros (ds & Hs & ->)%directives_Ok. count_parameterized Hs. lia. Qed.

Lemma count_parameterized_session_exist a cl out :
  directives a cl = Ok out →
  ∃ ds, session_directive a cl = Ok ds
        ∧ count_if (is_parameterized "session_exist") out = length ds.
Proof.
  intros (ds & Hs & ->)%directives_Ok. exists ds. split; [done|].
  rewrite !count_if_app, count_parameterized_strings.
  unfold custom_before_session, custom_after_arp.
  rewrite !count_if_app, !count_if_optional.
  unfold content_version_directive, free_disk_space_directive,
    planes_clock_sync_directive, ip_sec_tunnel_status_directive,
    arp_entry_exist_directive.
  simpl. rewrite ?andb_false_r. simpl.
  apply session_directive_shape in Hs as [->|[v ->]]; simpl; lia.
Qed.

(** X4.  For a check list that names [ip_sec_tunnel_status] the output
    holds one bare occurrence fewer than the list, and the directive
    [{ip_sec_tunnel_status: {tunnel_name: ipsec_tunnel_status}}] is in the
    output exactly when [ipsec_tunnel_status] is supplied; without it
    the check is dropped. *)
Theorem ip_sec_tunnel_status_promoted_or_dropped firewall r a h cl out :
  deref h r = Some cl → "ip_sec_tunnel_status" ∈ cl →
  (run_readiness_checks firewall r a h).1 = Ok out →
  count_if (is_bare "ip_sec_tunnel_status") out
  = occurrences "ip_sec_tunnel_status" cl - 1
  ∧ (PDict [("ip_sec_tunnel_status",
             PDict [("tunnel_name", str_value (ipsec_tunnel_status a))])] ∈ out
     ↔ truthy (ipsec_tunnel_status a) = true)
  ∧ count_if (is_parameterized "ip_sec_tunnel_status") out
    = (if truthy (ipsec_tunnel_status a) then 1 else 0).
Proof.
  intros Hcl Hin Hrun.
  rewrite (run_on_caller_list _ _ _ _ _ Hcl (elem_of_not_nil _ _ Hin)) in Hrun.
  pose proof (count_bare_directives "ip_sec_tunnel_status" _ _ _ Hrun) as Hbare.
  pose proof (count_parameterized_ip_sec_tunnel_status _ _ _ Hrun) as Hpar.
  rewrite occurrences_bare_checks_removed in Hbare
    by (apply py_in_true; reflexivity).
  apply py_in_true in Hin. rewrite Hin in Hpar. simpl in Hpar.
  split_and!; [done| |done].
  split.
  - intros Hd. destruct (truthy (ipsec_tunnel_status a)); [done|].
    apply (count_if_pos (is_parameterized "ip_sec_tunnel_status")) in Hd; [lia|done].
  - intros Ht. apply directives_Ok in Hrun as (ds & _ & ->).
    apply elem_of_app. right. apply elem_of_app. left.
    unfold custom_before_session. rewrite Hin, Ht.
    do 3 (apply elem_of_app; right). by left.
Qed.

Lemma ip_sec_tunnel_status_promoted_or_dropped_witness :
  (run_readiness_checks fw_standalone (Some 1%positive) args_tunnel
     (one_list ["ip_sec_tunnel_status"; "ntp_sync"])).1
  = Ok [PStr "ntp_sync"; PStr "free_disk_space";
        PDict [("ip_sec_tunnel_status", PDict [("tunnel_name", PStr "tunnel-1")])]]
  ∧ count_if (is_bare "ip_sec_tunnel_status")
      [PStr "ntp_sync"; PStr "free_disk_space";
       PDict [("ip_sec_tunnel_status", PDict [("tunnel_name", PStr "tunnel-1")])]]
    = occurrences "ip_sec_tunnel_status" ["ip_sec_tunnel_status"; "ntp_sync"] - 1.
Proof.
  assert ("ip_sec_tunnel_status" ∈ ["ip_sec_tunnel_status"; "ntp_sync"]) as Hin
    by (apply py_in_true; reflexivity).
  split; [reflexivity|].
  exact (proj1 (ip_sec_tunnel_status_promoted_or_dropped fw_standalone
                  (Some 1%positive) args_tunnel
                  (one_list ["ip_sec_tunnel_status"; "ntp_sync"])
                  ["ip_sec_tunnel_status"; "ntp_sync"] _ eq_refl Hin eq_refl)).
Defined.

(** X5.  For a check list that names [session_exist] and a session
    string of three fields the call returns, and its output holds the
    directive [{session_exist: {source, destination, dest_port}}] once
    and one bare [session_exist] fewer than the list. *)
Theorem session_exist_promoted firewall r a h cl s src dst port :
  deref h r = Some cl → "session_exist" ∈ cl →
  check_session_exists a = Some s → str_split "/" s = [src; dst; port] →
  ∃ out,
    (run_readiness_checks firewall r a h).1 = Ok out
    ∧ PDict [("session_exist",
              PDict [("source", PStr src); ("destination", PStr dst);
                     ("dest_port", PStr port)])] ∈ out
    ∧ count_if (is_parameterized "session_exist") out = 1
    ∧ count_if (is_bare "session_exist") out = occurrences "session_exist" cl - 1.
Proof.
  intros Hcl Hin Hs Hsplit.
  rewrite (run_on_caller_list _ _ _ _ _ Hcl (elem_of_not_nil _ _ Hin)).
  assert (session_directive a cl
          = Ok [PDict [("session_exist",
                        PDict [("source", PStr src); ("destination", PStr dst);
                               ("dest_port", PStr port)])]]) as Hsd.
  { unfold session_directive. apply py_in_true in Hin. rewrite Hin, Hs.
    destruct s as [|c s]; [done|].
    by rewrite (parse_session_three _ _ _ _ Hsplit). }
  assert (∃ out, directives a cl = Ok out) as [out Hout].
  { unfold directives. rewrite Hsd. eauto. }
  exists out. split; [done|].
  pose proof (count_bare_directives "session_exist" _ _ _ Hout) as Hbare.
  rewrite occurrences_bare_checks_removed in Hbare
    by (apply py_in_true; reflexivity).
  destruct (count_parameterized_session_exist _ _ _ Hout) as (ds & Hds & Hpar).
  rewrite Hsd in Hds. injection Hds as <-.
  split_and!; [|done|done].
  apply directives_Ok in Hout as (ds & Hds & ->). rewrite Hsd in Hds.
  injection Hds as <-.
  do 2 (apply elem_of_app; right). apply elem_of_app. left. by left.
Qed.

Lemma session_exist_promoted_witness :
  ∃ out,
    (run_readiness_checks fw_standalone (Some 1%positive)
       (args_session "10.10.10.10/8.8.8.8/443")
       (one_list ["session_exist"; "ntp_sync"])).1 = Ok out
    ∧ PDict [("session_exist",
              PDict [("source", PStr "10.10.10.10"); ("destination", PStr "8.8.8.8");
                     ("dest_port", PStr "443")])] ∈ out
    ∧ count_if (is_parameterized "session_exist") out = 1
    ∧ count_if (is_bare "session_exist") out
      = occurrences "session_exist" ["session_exist"; "ntp_sync"] - 1.
Proof.
  assert ("session_exist" ∈ ["session_exist"; "ntp_sync"]) as Hin
    by (apply py_in_true; reflexivity).
  exact (session_exist_promoted fw_standalone (Some 1%positive)
           (args_session "10.10.10.10/8.8.8.8/443")
           (one_list ["session_exist"; "ntp_sync"]) ["session_exist"; "ntp_sync"]
           "10.10.10.10/8.8.8.8/443" "10.10.10.10" "8.8.8.8" "443"
           eq_refl Hin eq_refl eq_refl).
Defined.

(** ** run_readiness_checks: the shape of the output *)

Lemma session_directive_not_requested a cl :
  "session_exist" ∉ cl → session_directive a cl = Ok [].
Proof.
  intros Hnin. apply py_in_false in Hnin. unfold session_directive. by rewrite Hnin.
Qed.

(** X6.  An argument whose check is not in the (possibly defaulted)
    list has no effect: the output holds no parameterized directive for
    it, and a session string is not even parsed, so the call returns
    whatever the string is.  Only [candidate_version] acts without
    being asked for. *)
Theorem arguments_ignored_without_their_check firewall r a h :
  let given := working_list firewall (deref h r) in
  ("session_exist" ∉ given → ∃ out, (run_readiness_checks firewall r a h).1 = Ok out)
  ∧ (∀ out, (run_readiness_checks firewall r a h).1 = Ok out →
       ("content_version" ∉ given →
        count_if (is_parameterized "content_version") out = 0)
       ∧ ("planes_clock_sync" ∉ given →
          count_if (is_parameterized "planes_clock_sync") out = 0)
       ∧ ("ip_sec_tunnel_status" ∉ given →
          count_if (is_parameterized "ip_sec_tunnel_status") out = 0)
       ∧ ("session_exist" ∉ given →
          count_if (is_parameterized "session_exist") out = 0)
       ∧ ("arp_entry_exists" ∉ given →
          count_if (is_parameterized "arp_entry_exist") out = 0)).
Proof.
  intros given. subst given. split.
  - intros Hnin. rewrite run_output. unfold directives.
    rewrite (session_directive_not_requested _ _ Hnin). eauto.
  - intros out. rewrite run_output. intros Hrun. split_and!; intros Hnin.
    + rewrite (count_parameterized_content_version _ _ _ Hrun).
      apply py_in_false in Hnin. by rewrite Hnin.
    + rewrite (count_parameterized_planes_clock_sync _ _ _ Hrun).
      apply py_in_false in Hnin. by rewrite Hnin.
    + rewrite (count_parameterized_ip_sec_tunnel_status _ _ _ Hrun).
      apply py_in_false in Hnin. by rewrite Hnin.
    + destruct (count_parameterized_session_exist _ _ _ Hrun) as (ds & Hds & ->).
      rewrite (session_directive_not_requested _ _ Hnin) in Hds. by injection Hds as <-.
    + rewrite (count_parameterized_arp_entry_exist _ _ _ Hrun).
      apply py_in_false in Hnin. by rewrite Hnin.
Qed.

Lemma arguments_ignored_without_their_check_witness :
  ("session_exist" ∉ working_list fw_standalone
                       (deref (one_list ["ntp_sync"]) (Some 1%positive)))
  ∧ ∃ out,
      (run_readiness_checks fw_standalone (Some 1%positive)
         (args_session "10.10.10.10/8.8.8.8") (one_list ["ntp_sync"])).1 = Ok out.
Proof.
  assert ("session_exist" ∉ working_list fw_standalone
                              (deref (one_list ["ntp_sync"]) (Some 1%positive)))
    as Hnin by (apply py_in_false; reflexivity).
  split; [exact Hnin|].
  exact (proj1 (arguments_ignored_without_their_check fw_standalone (Some 1%positive)
                  (args_session "10.10.10.10/8.8.8.8") (one_list ["ntp_sync"])) Hnin).
Defined.

Lemma bare_names_app out1 out2 :
  bare_names (out1 ++ out2) = bare_names out1 ++ bare_names out2.
Proof. unfold bare_names. apply omap_app. Qed.

Lemma bare_names_strings l : bare_names (map PStr l) = l.
Proof. induction l as [|x l IH]; [done|]. simpl. by f_equal. Qed.

Lemma parameterized_part_strings l : parameterized_part (map PStr l) = [].
Proof. by induction l as [|x l IH]. Qed.

Lemma bare_names_optional (c : bool) items :
  bare_names (if c then [PDict items] else []) = [].
Proof. by destruct c. Qed.

Lemma parameterized_part_optional (c : bool) items :
  parameterized_part (if c then [PDict items] else [])
  = if c then [PDict items] else [].
Proof. by destruct c. Qed.

(** The two parts of an output. *)
Lemma directives_parts a cl out :
  directives a cl = Ok out →
  bare_names out = bare_checks a cl
  ∧ ∃ ds, session_directive a cl = Ok ds
          ∧ parameterized_part out
            = custom_before_session a cl ++ ds ++ custom_after_arp a cl.
Proof.
  intros (ds & Hs & ->)%directives_Ok. split.
  - rewrite !bare_names_app, bare_names_strings.
    unfold custom_before_session, custom_after_arp.
    rewrite !bare_names_app.
    unfold content_version_directive, free_disk_space_directive,
      planes_clock_sync_directive, ip_sec_tunnel_status_directive,
      arp_entry_exist_directive.
    rewrite !bare_names_optional.
    apply session_directive_shape in Hs as [->|[v ->]]; simpl; by rewrite app_nil_r.
  - exists ds. split; [done|]. unfold parameterized_part.
    rewrite !List.filter_app. fold (parameterized_part (map PStr (bare_checks a cl))).
    rewrite parameterized_part_strings.
    unfold custom_before_session, custom_after_arp.
    rewrite !List.filter_app.
    unfold content_version_directive, free_disk_space_directive,
      planes_clock_sync_directive, ip_sec_tunnel_status_directive,
      arp_entry_exist_directive.
    repeat match goal with
           | |- context [List.filter ?f (if ?c then [PDict ?i] else [])] =>
               change (List.filter f (if c then [PDict i] else []))
                 with (parameterized_part (if c then [PDict i] else []));
               rewrite (parameterized_part_optional c i)
           end.
    apply session_directive_shape in Hs as [->|[v ->]]; done.
Qed.

(** X7.  An output is the bare identifiers followed by the
    parameterized directives, and the parameterized directives come in
    the order of lines 126-179, each name at most once: [content_version],
    [free_disk_space], [planes_clock_sync], [ip_sec_tunnel_status],
    [session_exist], [arp_entry_exist]. *)
Theorem output_bare_then_parameterized firewall r a h out :
  (run_readiness_checks firewall r a h).1 = Ok out →
  out = map PStr (bare_names out) ++ parameterized_part out
  ∧ map directive_name (parameterized_part out) `sublist_of` map Some custom_order.
Proof.
  rewrite run_output. intros Hrun.
  destruct (directives_parts _ _ _ Hrun) as (Hbare & ds & Hs & Hpar).
  rewrite Hbare, Hpar. split.
  - apply directives_Ok in Hrun as (ds' & Hs' & ->). congruence.
  - unfold custom_before_session, custom_after_arp, custom_order.
    apply session_directive_shape in Hs as [->|[v ->]];
      repeat match goal with
             | |- context [if ?c then _ else _] => destruct c
             end; simpl; repeat constructor.
Qed.

Lemma output_bare_then_parameterized_witness :
  (run_readiness_checks fw_standalone (Some 1%positive) args_everything
     (one_list ["arp_entry_exists"; "ntp_sync"; "session_exist"; "content_version"])).1
  = Ok [PStr "ntp_sync";
        PDict [("content_version", PDict [("version", PStr "8421-7321")])];
        PDict [("free_disk_space", PDict [("image_version", PStr "10.2.3")])];
        PDict [("session_exist",
                PDict [("source", PStr "10.10.10.10"); ("destination", PStr "8.8.8.8");
                       ("dest_port", PStr "443")])];
        PDict [("arp_entry_exist", PDict [("ip", PStr "10.0.0.6")])]]
  ∧ map directive_name
      (parameterized_part
         [PStr "ntp_sync";
          PDict [("content_version", PDict [("version", PStr "8421-7321")])];
          PDict [("free_disk_space", PDict [("image_version", PStr "10.2.3")])];
          PDict [("session_exist",
                  PDict [("source", PStr "10.10.10.10");
                         ("destination", PStr "8.8.8.8"); ("dest_port", PStr "443")])];
          PDict [("arp_entry_exist", PDict [("ip", PStr "10.0.0.6")])]])
    `sublist_of` map Some custom_order.
Proof.
  split; [reflexivity|].
  exact (proj2 (output_bare_then_parameterized fw_standalone (Some 1%positive)
                  args_everything
                  (one_list ["arp_entry_exists"; "ntp_sync"; "session_exist";
                             "content_version"]) _ eq_refl)).
Defined.

Lemma filter_remove_first (f : string → bool) x l :
  f x = false → List.filter f (remove_first x l) = List.filter f l.
Proof.
  intros Hf. induction l as [|y l IH]; [done|].
  rewrite remove_first_cons. destruct (decide (y = x)) as [->|Hne].
  - simpl. by rewrite Hf.
  - simpl. by rewrite IH.
Qed.

(** X8.  Every identifier that lines 126-179 do not handle passes
    through: the bare identifiers of the output, without the six handled
    names, are those of the (possibly defaulted) check list, in the same
    order and as often.  Identifiers the evaluator may not know are not
    filtered out. *)
Theorem other_identifiers_pass_through firewall r a h out :
  (run_readiness_checks firewall r a h).1 = Ok out →
  List.filter (λ x, negb (py_in x handled_identifiers)) (bare_names out)
  = List.filter (λ x, negb (py_in x handled_identifiers))
      (working_list firewall (deref h r)).
Proof.
  rewrite run_output. intros Hrun.
  destruct (directives_parts _ _ _ Hrun) as [-> _].
  unfold bare_checks, after_ip_sec_tunnel_status, after_free_disk_space,
    after_content_version.
  rewrite !filter_remove_first by reflexivity.
  repeat case_match; rewrite ?List.filter_app, ?filter_remove_first by reflexivity;
    simpl; by rewrite ?app_nil_r.
Qed.

Lemma other_identifiers_pass_through_witness :
  (run_readiness_checks fw_standalone (Some 1%positive) args_clock_diff
     (one_list ["zeta"; "planes_clock_sync"; "ntp_sync"; "zeta"])).1
  = Ok [PStr "zeta"; PStr "ntp_sync"; PStr "zeta"; PStr "free_disk_space";
        PDict [("planes_clock_sync", PDict [("diff_threshold", PInt 5)])]]
  ∧ List.filter (λ x, negb (py_in x handled_identifiers))
      (bare_names
         [PStr "zeta"; PStr "ntp_sync"; PStr "zeta"; PStr "free_disk_space";
          PDict [("planes_clock_sync", PDict [("diff_threshold", PInt 5)])]])
    = List.filter (λ x, negb (py_in x handled_identifiers))
        (working_list fw_standalone
           (deref (one_list ["zeta"; "planes_clock_sync"; "ntp_sync"; "zeta"])
              (Some 1%positive))).
Proof.
  split; [reflexivity|].
  exact (other_identifiers_pass_through fw_standalone (Some 1%positive)
           args_clock_diff
           (one_list ["zeta"; "planes_clock_sync"; "ntp_sync"; "zeta"]) _ eq_refl).
Defined.

(** ** run_readiness_checks: calls on the same list object *)

Lemma run_heap_on_caller_list firewall l a h x cl :
  h !! l = Some (x :: cl) →
  (run_readiness_checks firewall (Some l) a h).2 !! l
  = Some (list_after_call a (x :: cl)).
Proof.
  intros Hl. rewrite run_readiness_checks_spec. cbn [snd]. rewrite Hl.
  cbn [is_empty_arg default]. by rewrite lookup_insert_eq.
Qed.

Lemma session_directive_after a cl ds :
  session_directive a cl = Ok ds →
  ∃ ds', session_directive a (bare_checks a cl) = Ok ds'.
Proof.
  intros Hs. unfold session_directive in *.
  destruct (py_in "session_exist" (bare_checks a cl)) eqn:Hin; [|eauto].
  assert (py_in "session_exist" cl = true) as Hcl.
  { destruct (py_in "session_exist" cl) eqn:Hcl; [done|].
    apply py_in_false, occurrences_zero in Hcl. apply py_in_true, occurrences_pos in Hin.
    rewrite occurrences_bare_checks_removed in Hin by (apply py_in_true; reflexivity).
    lia. }
  rewrite Hcl in Hs. repeat case_match; simplify_eq; eauto.
Qed.

(** X9.  The list object is reused at the caller's risk: without
    [candidate_version], a second call on the list object that a first
    call has worked on returns again, and its output holds one bare
    [free_disk_space] more than the first. *)
Theorem second_call_adds_free_disk_space firewall l a h cl out :
  h !! l = Some cl → cl ≠ [] → truthy (candidate_version a) = false →
  (run_readiness_checks firewall (Some l) a h).1 = Ok out →
  ∃ out',
    (run_readiness_checks firewall (Some l) a
       (run_readiness_checks firewall (Some l) a h).2).1 = Ok out'
    ∧ count_if (is_bare "free_disk_space") out'
      = count_if (is_bare "free_disk_space") out + 1.
Proof.
  intros Hl Hne Hc Hrun. destruct cl as [|x cl]; [done|].
  pose proof (run_heap_on_caller_list firewall l a h x cl Hl) as Hheap.
  rewrite (run_on_caller_list firewall (Some l) a h (x :: cl)) in Hrun by done.
  assert (list_after_call a (x :: cl) = bare_checks a (x :: cl)) as Hafter.
  { unfold list_after_call. unfold directives in Hrun.
    by destruct (session_directive a (x :: cl)). }
  rewrite Hafter in Hheap.
  pose proof (count_bare_directives "free_disk_space" _ _ _ Hrun) as Hbare.
  rewrite occurrences_bare_checks, occurrences_after_free_disk_space in Hbare by done.
  rewrite Hc, andb_false_r in Hbare. simpl in Hbare.
  assert (bare_checks a (x :: cl) ≠ []) as Hne'.
  { intros Hnil.
    pose proof (occurrences_bare_checks "free_disk_space" a (x :: cl)) as Hocc.
    rewrite Hnil, occurrences_after_free_disk_space in Hocc.
    rewrite Hc, andb_false_r in Hocc. simpl in Hocc.
    specialize (Hocc ltac:(done) ltac:(done) ltac:(done) ltac:(done)).
    unfold occurrences at 1 in Hocc. simpl in Hocc. lia. }
  rewrite (run_on_caller_list firewall (Some l) a _ (bare_checks a (x :: cl)))
    by done.
  apply directives_Ok in Hrun as (ds & Hs & _).
  destruct (session_directive_after _ _ _ Hs) as [ds' Hs'].
  assert (∃ out', directives a (bare_checks a (x :: cl)) = Ok out') as [out' Hout'].
  { unfold directives. rewrite Hs'. eauto. }
  exists out'. split; [done|].
  rewrite (count_bare_directives "free_disk_space" _ _ _ Hout').
  rewrite occurrences_bare_checks, occurrences_after_free_disk_space by done.
  rewrite Hc, andb_false_r. simpl.
  rewrite occurrences_bare_checks, occurrences_after_free_disk_space by done.
  rewrite Hc, andb_false_r. simpl. lia.
Qed.

Lemma second_call_adds_free_disk_space_witness :
  ∃ out',
    (run_readiness_checks fw_standalone (Some 1%positive) no_args
       (run_readiness_checks fw_standalone (Some 1%positive) no_args
          (one_list ["ntp_sync"])).2).1 = Ok out'
    ∧ count_if (is_bare "free_disk_space") out'
      = count_if (is_bare "free_disk_space") [PStr "ntp_sync"; PStr "free_disk_space"]
        + 1.
Proof.
  exact (second_call_adds_free_disk_space fw_standalone 1%positive no_args
           (one_list ["ntp_sync"]) ["ntp_sync"] _
           eq_refl ltac:(discriminate) eq_refl eq_refl).
Defined.

Lemma occurrences_nil_inv l : (∀ x, occurrences x l = 0) → l = [].
Proof.
  destruct l as [|y l]; [done|]. intros Hocc. specialize (Hocc y).
  unfold occurrences in Hocc. simpl in Hocc. rewrite String.eqb_refl in Hocc. lia.
Qed.

Lemma occurrences_NoDup x l : NoDup l → (occurrences x l <= 1)%nat.
Proof.
  induction 1 as [|y l Hnin _ IH]; [unfold occurrences; simpl; lia|].
  unfold occurrences in *. simpl. destruct (String.eqb_spec y x) as [->|_]; [|lia].
  apply occurrences_zero in Hnin. unfold occurrences in Hnin. lia.
Qed.

(** X10.  A call can use the caller's list up: when the list names only
    checks that lines 141-179 convert, each once, and [candidate_version]
    is supplied, the list object is empty after the call, and a second
    call on it runs the default list, as a call without a check list
    does. *)
Theorem converted_list_left_empty firewall l a h cl out :
  h !! l = Some cl → cl ≠ [] → NoDup cl →
  cl ⊆ ["planes_clock_sync"; "ip_sec_tunnel_status"; "session_exist";
        "arp_entry_exists"] →
  truthy (candidate_version a) = true →
  (run_readiness_checks firewall (Some l) a h).1 = Ok out →
  (run_readiness_checks firewall (Some l) a h).2 !! l = Some []
  ∧ (run_readiness_checks firewall (Some l) a
       (run_readiness_checks firewall (Some l) a h).2).1
    = (run_readiness_checks firewall None a h).1.
Proof.
  intros Hl Hne Hnd Hsub Hc Hrun. destruct cl as [|x cl]; [done|].
  pose proof (run_heap_on_caller_list firewall l a h x cl Hl) as Hheap.
  rewrite (run_on_caller_list firewall (Some l) a h (x :: cl)) in Hrun by done.
  assert (list_after_call a (x :: cl) = bare_checks a (x :: cl)) as Hafter.
  { unfold list_after_call. unfold directives in Hrun.
    by destruct (session_directive a (x :: cl)). }
  assert (bare_checks a (x :: cl) = []) as Hnil.
  { apply occurrences_nil_inv. intros y.
    pose proof (occurrences_NoDup y _ Hnd) as Hle.
    destruct (decide (y ∈ ["planes_clock_sync"; "ip_sec_tunnel_status";
                           "session_exist"; "arp_entry_exists"])) as [Hy|Hy].
    - rewrite occurrences_bare_checks_removed by done. lia.
    - assert (occurrences y (x :: cl) = 0) as Hzero.
      { apply occurrences_zero. intros Hin. apply Hy, Hsub, Hin. }
      rewrite occurrences_bare_checks, occurrences_after_free_disk_space.
      + rewrite Hc, Hzero. simpl. done.
      + intros ->. apply Hy. apply py_in_true. reflexivity.
      + intros ->. apply Hy. apply py_in_true. reflexivity.
      + intros ->. apply Hy. apply py_in_true. reflexivity.
      + intros ->. apply Hy. apply py_in_true. reflexivity. }
  rewrite Hafter, Hnil in Hheap. split; [done|].
  rewrite !run_output. unfold deref. cbn [mbind option_bind]. by rewrite Hheap.
Qed.

Lemma converted_list_left_empty_witness :
  (run_readiness_checks fw_standalone (Some 1%positive) args_everything
     (one_list ["arp_entry_exists"; "planes_clock_sync"])).2 !! 1%positive
  = Some []
  ∧ (run_readiness_checks fw_standalone (Some 1%positive) args_everything
       (run_readiness_checks fw_standalone (Some 1%positive) args_everything
          (one_list ["arp_entry_exists"; "planes_clock_sync"])).2).1
    = (run_readiness_checks fw_standalone None args_everything
         (one_list ["arp_entry_exists"; "planes_clock_sync"])).1.
Proof.
  assert (NoDup ["arp_entry_exists"; "planes_clock_sync"]) as Hnd.
  { refine (bool_decide_unpack (NoDup ["arp_entry_exists"; "planes_clock_sync"]) _).
    vm_compute. exact I. }
  assert (["arp_entry_exists"; "planes_clock_sync"]
          ⊆ ["planes_clock_sync"; "ip_sec_tunnel_status"; "session_exist";
             "arp_entry_exists"]) as Hsub.
  { intros y Hy. apply py_in_true.
    repeat (apply elem_of_cons in Hy as [->|Hy]; [reflexivity|]).
    by apply elem_of_nil in Hy. }
  exact (converted_list_left_empty fw_standalone 1%positive args_everything
           (one_list ["arp_entry_exists"; "planes_clock_sync"])
           ["arp_entry_exists"; "planes_clock_sync"] _
           eq_refl ltac:(discriminate) Hnd Hsub eq_refl eq_refl).
Defined.

Lemma directives_raise_requested a cl e :
  directives a cl = Raise e → "session_exist" ∈ cl.
Proof.
  unfold directives. intros Hrun. apply py_in_true.
  destruct (py_in "session_exist" cl) eqn:Hin; [done|].
  apply py_in_false in Hin. by rewrite (session_directive_not_requested _ _ Hin) in Hrun.
Qed.

(** X11.  The exception of line 164 undoes nothing.  When the call
    raises, the caller's list object has lost the first
    [planes_clock_sync] and [ip_sec_tunnel_status] (and [content_version],
    with [min_content_version]) and has gained [free_disk_space]
    (without [candidate_version]), while [session_exist] and
    [arp_entry_exists] are as they were. *)
Theorem exception_keeps_earlier_updates firewall l a h cl e :
  h !! l = Some cl →
  (run_readiness_checks firewall (Some l) a h).1 = Raise e →
  ∃ cl',
    (run_readiness_checks firewall (Some l) a h).2 !! l = Some cl'
    ∧ cl' = remove_first "ip_sec_tunnel_status"
              (remove_first "planes_clock_sync"
                 ((if truthy (min_content_version a)
                   then remove_first "content_version" cl else cl)
                  ++ (if truthy (candidate_version a)
                      then [] else ["free_disk_space"])))
    ∧ occurrences "session_exist" cl' = occurrences "session_exist" cl
    ∧ occurrences "arp_entry_exists" cl' = occurrences "arp_entry_exists" cl
    ∧ "session_exist" ∈ cl'
    ∧ (truthy (candidate_version a) = false → cl' ≠ cl).
Proof.
  intros Hl Hrun. rewrite run_output in Hrun. unfold deref in Hrun.
  cbn [mbind option_bind] in Hrun. rewrite Hl in Hrun.
  assert (cl ≠ []) as Hne.
  { intros ->. unfold working_list in Hrun. cbn [is_empty_arg] in Hrun.
    rewrite directives_default_check_list in Hrun. done. }
  destruct cl as [|x cl]; [done|]. unfold working_list in Hrun.
  cbn [is_empty_arg default] in Hrun. unfold id in Hrun.
  pose proof (directives_raise_requested _ _ _ Hrun) as Hin.
  exists (after_ip_sec_tunnel_status a (x :: cl)).
  assert (∀ y, y ≠ "planes_clock_sync" → y ≠ "ip_sec_tunnel_status" →
               occurrences y (after_ip_sec_tunnel_status a (x :: cl))
               = occurrences y (after_free_disk_space a (x :: cl))) as Hocc.
  { intros y ? ?. unfold after_ip_sec_tunnel_status.
    by rewrite !occurrences_remove_first_ne. }
  split_and!.
  - rewrite (run_heap_on_caller_list _ _ _ _ _ _ Hl). unfold list_after_call.
    unfold directives in Hrun. by destruct (session_directive a (x :: cl)).
  - unfold after_ip_sec_tunnel_status, after_free_disk_space, after_content_version.
    destruct (py_in "content_version" (x :: cl)) eqn:Hcv; cbn [andb].
    + by destruct (truthy (min_content_version a)), (truthy (candidate_version a));
        rewrite ?app_nil_r.
    + apply py_in_false in Hcv. rewrite (remove_first_not_in _ _ Hcv).
      by destruct (truthy (min_content_version a)), (truthy (candidate_version a));
        rewrite ?app_nil_r.
  - rewrite Hocc, occurrences_after_free_disk_space by done.
    rewrite !andb_false_r. simpl. lia.
  - rewrite Hocc, occurrences_after_free_disk_space by done.
    rewrite !andb_false_r. simpl. lia.
  - apply occurrences_pos. rewrite Hocc, occurrences_after_free_disk_space by done.
    rewrite !andb_false_r. simpl. apply occurrences_pos in Hin. lia.
  - intros Hc Heq.
    pose proof (Hocc "free_disk_space" ltac:(done) ltac:(done)) as Hfds.
    rewrite Heq, occurrences_after_free_disk_space in Hfds.
    rewrite Hc, andb_false_r in Hfds. simpl in Hfds. lia.
Qed.

Lemma exception_keeps_earlier_updates_witness :
  (run_readiness_checks fw_standalone (Some 1%positive)
     (args_session "10.10.10.10/8.8.8.8")
     (one_list ["planes_clock_sync"; "session_exist"; "arp_entry_exists"])).1
  = Raise (ValueError
             "10.10.10.10/8.8.8.8 is not a valid session string. Must be 'source/destination/port'.")
  ∧ ∃ cl',
      (run_readiness_checks fw_standalone (Some 1%positive)
         (args_session "10.10.10.10/8.8.8.8")
         (one_list ["planes_clock_sync"; "session_exist"; "arp_entry_exists"])).2
      !! 1%positive = Some cl'
      ∧ "session_exist" ∈ cl'
      ∧ cl' ≠ ["planes_clock_sync"; "session_exist"; "arp_entry_exists"].
Proof.
  split; [reflexivity|].
  destruct (exception_keeps_earlier_updates fw_standalone 1%positive
              (args_session "10.10.10.10/8.8.8.8")
              (one_list ["planes_clock_sync"; "session_exist"; "arp_entry_exists"])
              ["planes_clock_sync"; "session_exist"; "arp_entry_exists"] _
              eq_refl eq_refl) as (cl' & Hheap & _ & _ & _ & Hin & Hne).
  exists cl'. split_and!; [exact Hheap | exact Hin | exact (Hne eq_refl)].
Defined.

(** ** C9: runs and the contents of the list *)




(** ** run_snapshot and compare_snapshots *)

Lemma run_snapshot_working_list firewall r h :
  run_snapshot firewall r h = snapshot_working_list (deref h r).
Proof. done. Qed.

(** X12.  [bgp_peers] is compared only on request: the output of
    [compare_snapshots] holds the [bgp_peers] directive exactly when the
    caller's list is not empty and names [bgp_peers]; the default list
    never compares BGP peers. *)
Theorem bgp_peers_only_on_request left_snapshot right_snapshot r t h :
  PDict [("bgp_peers", PDict [("properties", PList [PStr "status"])])]
    ∈ compare_snapshots left_snapshot right_snapshot r t h
  ↔ ∃ cl, deref h r = Some cl ∧ "bgp_peers" ∈ cl.
Proof.
  split.
  - intros Hd.
    apply (count_if_pos (is_named "bgp_peers")) in Hd; [|reflexivity].
    rewrite compare_snapshots_count in Hd.
    destruct (py_in "bgp_peers" (snapshot_working_list (deref h r))) eqn:Hin;
      [|simpl in Hd; lia].
    unfold snapshot_working_list in Hin.
    destruct (deref h r) as [[|x cl]|]; simpl in Hin; try discriminate Hin.
    exists (x :: cl). split; [done|]. by apply py_in_true.
  - intros (cl & Hcl & Hin). unfold compare_snapshots. rewrite Hcl.
    destruct cl as [|x cl]; [by apply elem_of_nil in Hin|].
    cbn [is_empty_arg default]. unfold id.
    do 7 (apply elem_of_app; right).
    unfold when_in. apply py_in_true in Hin. rewrite Hin. by left.
Qed.

(** X13.  A comparison made with the list argument of the snapshot
    compares, of the types that [run_snapshot] hands to the evaluator,
    exactly those in the fixed list of [compare_snapshots], in its order;
    the others are captured but never compared.  With an empty argument
    both functions use the same default list, and every captured type is
    compared. *)
Theorem compared_types_are_captured_types firewall left_snapshot right_snapshot
    r t h :
  map directive_name (compare_snapshots left_snapshot right_snapshot r t h)
  = map Some (List.filter (λ x, py_in x (run_snapshot firewall r h)) canonical_order)
  ∧ (∀ x, x ∉ canonical_order →
          count_if (is_named x)
            (compare_snapshots left_snapshot right_snapshot r t h) = 0)
  ∧ (∀ cl, deref h r = Some cl → cl ≠ [] → run_snapshot firewall r h = cl)
  ∧ (is_empty_arg (deref h r) = true →
     map directive_name (compare_snapshots left_snapshot right_snapshot r t h)
     = map Some (run_snapshot firewall r h)).
Proof.
  rewrite run_snapshot_working_list. split_and!.
  - apply compare_snapshots_names.
  - intros x Hx. rewrite compare_snapshots_count. apply py_in_false in Hx.
    by rewrite Hx, andb_false_r.
  - intros cl Hcl Hne. unfold snapshot_working_list. rewrite Hcl. by destruct cl.
  - intros Hempty. rewrite compare_snapshots_names.
    unfold snapshot_working_list. rewrite Hempty. reflexivity.
Qed.

Lemma compared_types_are_captured_types_witness :
  ("unknown" ∉ canonical_order)
  ∧ run_snapshot fw_standalone (Some 1%positive) (one_list ["unknown"; "routes"])
    = ["unknown"; "routes"]
  ∧ count_if (is_named "unknown")
      (compare_snapshots PNone PNone (Some 1%positive) PNone
         (one_list ["unknown"; "routes"])) = 0.
Proof.
  assert ("unknown" ∉ canonical_order) as Hu by (apply py_in_false; reflexivity).
  destruct (compared_types_are_captured_types fw_standalone PNone PNone
              (Some 1%positive) PNone (one_list ["unknown"; "routes"]))
    as (_ & Hdrop & Hpass & _).
  split_and!; [exact Hu | exact (Hpass _ eq_refl ltac:(discriminate)) | exact (Hdrop _ Hu)].
Defined.

(** ** The result tables *)

Lemma dict_get_set k k' v d :
  dict_get k (dict_set k' v d) = if String.eqb k' k then Some v else dict_get k d.
Proof.
  induction d as [|[k0 v0] d IH]; simpl.
  - done.
  - destruct (String.eqb_spec k0 k') as [->|Hne]; simpl.
    + by destruct (String.eqb k' k).
    + rewrite IH. destruct (String.eqb_spec k0 k) as [->|_]; [|done].
      destruct (String.eqb_spec k' k); [congruence|done].
Qed.

Lemma dict_get_None k d : dict_get k d = None ↔ k ∉ dict_keys d.
Proof.
  induction d as [|[k0 v0] d IH]; simpl.
  - split; [intros _; apply not_elem_of_nil|done].
  - rewrite not_elem_of_cons. destruct (String.eqb_spec k0 k) as [->|Hne].
    + split; [done|]. by intros [? _].
    + rewrite IH. split; [|by intros [_ ?]]. intros ?. split; [congruence|done].
Qed.

Lemma dict_get_update k d items :
  NoDup (dict_keys items) →
  dict_get k (dict_update d items)
  = match dict_get k items with
    | Some v => Some v
    | None => dict_get k d
    end.
Proof.
  unfold dict_update. revert d. induction items as [|[k0 v0] items IH]; intros d Hnd.
  - done.
  - simpl in Hnd. apply NoDup_cons in Hnd as [Hnin Hnd]. simpl.
    rewrite (IH _ Hnd), dict_get_set.
    destruct (String.eqb_spec k0 k) as [->|_]; [|done].
    apply dict_get_None in Hnin. by rewrite Hnin.
Qed.

Lemma dict_set_new k v d : k ∉ dict_keys d → dict_set k v d = d ++ [(k, v)].
Proof.
  induction d as [|[k0 v0] d IH]; simpl; [done|].
  rewrite not_elem_of_cons. intros [Hne Hnin].
  destruct (String.eqb_spec k0 k); [congruence|]. by rewrite (IH Hnin).
Qed.

Lemma dict_update_new d items :
  NoDup (dict_keys items) → (∀ k, k ∈ dict_keys items → k ∉ dict_keys d) →
  dict_update d items = d ++ items.
Proof.
  unfold dict_update. revert d. induction items as [|[k0 v0] items IH];
    intros d Hnd Hnew; simpl.
  - by rewrite app_nil_r.
  - simpl in Hnd. apply NoDup_cons in Hnd as [Hnin Hnd].
    rewrite dict_set_new by (apply Hnew; by left).
    rewrite IH; [by rewrite <- app_assoc|done|].
    intros k Hk. unfold dict_keys. rewrite map_app, elem_of_app.
    intros [Hd|Hd%list_elem_of_singleton].
    + by apply (Hnew k); [right|].
    + simpl in Hd. by subst.
Qed.

Lemma readiness_table_lookup results table i key items :
  convert_readiness_results_to_table results = Ok table →
  results !! i = Some (key, PDict items) →
  table !! i = Some (PDict (dict_update [("Test", PStr key)] items)).
Proof.
  revert table i. induction results as [|[k v] results IH]; intros table i Hconv Hi.
  - done.
  - simpl in Hconv. destruct v; try discriminate Hconv.
    destruct (convert_readiness_results_to_table results) as [rest|e];
      [|discriminate Hconv].
    injection Hconv as <-. destruct i as [|i]; simpl in *.
    + by injection Hi as -> ->.
    + by apply IH.
Qed.

Lemma readiness_table_length results table :
  convert_readiness_results_to_table results = Ok table →
  length table = length results.
Proof.
  revert table. induction results as [|[k v] results IH]; intros table Hconv.
  - by injection Hconv as <-.
  - simpl in Hconv. destruct v; try discriminate Hconv.
    destruct (convert_readiness_results_to_table results) as [rest|e];
      [|discriminate Hconv].
    injection Hconv as <-. simpl. by rewrite (IH rest).
Qed.

(** X14.  [convert_readiness_results_to_table] returns a table exactly
    when every result is a dict; otherwise it raises the [TypeError] of
    [**result] for a result that is no mapping, and no table is built. *)
Theorem readiness_table_needs_dicts results :
  ((∃ table, convert_readiness_results_to_table results = Ok table)
   ↔ Forall (λ kv, is_dict kv.2 = true) results)
  ∧ (∀ e, convert_readiness_results_to_table results = Raise e →
          ∃ key v, (key, v) ∈ results ∧ is_dict v = false
                   ∧ e = TypeError ("'" +:+ type_name v +:+ "' object is not a mapping")).
Proof.
  induction results as [|[k v] results [IHiff IHerr]].
  - split; [split; [by constructor|by eexists]|done].
  - split.
    + split.
      * intros [table Hconv]. simpl in Hconv.
        destruct v; try discriminate Hconv.
        destruct (convert_readiness_results_to_table results) as [rest|e];
          [|discriminate Hconv].
        constructor; [done|]. apply IHiff. eauto.
      * intros Hall. apply Forall_cons in Hall as [Hv Hall].
        apply IHiff in Hall as [rest Hrest]. simpl.
        destruct v; try discriminate Hv. rewrite Hrest. eauto.
    + intros e Hconv. simpl in Hconv.
      destruct v as [|b|z|s|l|items];
        try (injection Hconv as <-; eexists k, _; split_and!;
             [by left|done|done]).
      destruct (convert_readiness_results_to_table results) as [rest|e'];
        [discriminate Hconv|].
      injection Hconv as ->. destruct (IHerr e eq_refl) as (key & v & Hin & Hv & He).
      exists key, v. split_and!; [by right|done|done].
Qed.

(** X15.  The table has one row per result, in order.  The row of a
    check is its result dict with the key [Test], holding the name of
    the check, put in front: every key of the result is still in the
    row with its value. *)
Theorem readiness_table_rows results table i key items :
  convert_readiness_results_to_table results = Ok table →
  results !! i = Some (key, PDict items) →
  NoDup (dict_keys items) → "Test" ∉ dict_keys items →
  length table = length results
  ∧ table !! i = Some (PDict (("Test", PStr key) :: items)).
Proof.
  intros Hconv Hi Hnd Hnew. split; [by apply readiness_table_length|].
  rewrite (readiness_table_lookup _ _ _ _ _ Hconv Hi).
  rewrite dict_update_new; [done|done|].
  intros k Hk. simpl. rewrite list_elem_of_singleton. by intros ->.
Qed.

Lemma readiness_table_rows_witness :
  convert_readiness_results_to_table
    [("ntp_sync", PDict [("state", PBool true); ("reason", PStr "[SUCCESS]")]);
     ("panorama", PDict [("state", PBool false); ("reason", PStr "[FAIL]")])]
  = Ok [PDict [("Test", PStr "ntp_sync"); ("state", PBool true);
               ("reason", PStr "[SUCCESS]")];
        PDict [("Test", PStr "panorama"); ("state", PBool false);
               ("reason", PStr "[FAIL]")]]
  ∧ [PDict [("Test", PStr "ntp_sync"); ("state", PBool true);
            ("reason", PStr "[SUCCESS]")];
     PDict [("Test", PStr "panorama"); ("state", PBool false);
            ("reason", PStr "[FAIL]")]] !! 1
    = Some (PDict [("Test", PStr "panorama"); ("state", PBool false);
                   ("reason", PStr "[FAIL]")]).
Proof.
  split; [reflexivity|].
  refine (proj2 (readiness_table_rows
                   [("ntp_sync", PDict [("state", PBool true);
                                        ("reason", PStr "[SUCCESS]")]);
                    ("panorama", PDict [("state", PBool false);
                                        ("reason", PStr "[FAIL]")])]
                   _ 1 "panorama"
                   [("state", PBool false); ("reason", PStr "[FAIL]")]
                   eq_refl eq_refl _ _)).
  - refine (bool_decide_unpack (NoDup (dict_keys _)) _). vm_compute. exact I.
  - apply py_in_false. reflexivity.
Defined.

(** X16.  A result that has a key [Test] of its own overrides the name
    of the check: the row holds the result's value under [Test], and
    every other key as in the result. *)
Theorem readiness_table_test_key_overridden results table i key items v :
  convert_readiness_results_to_table results = Ok table →
  results !! i = Some (key, PDict items) →
  NoDup (dict_keys items) → dict_get "Test" items = Some v →
  ∃ row,
    table !! i = Some (PDict row)
    ∧ dict_get "Test" row = Some v
    ∧ (∀ k, dict_get k row = dict_get k items).
Proof.
  intros Hconv Hi Hnd Hv. eexists. split; [by eapply readiness_table_lookup|].
  split.
  - by rewrite dict_get_update, Hv.
  - intros k. rewrite dict_get_update by done.
    destruct (dict_get k items) eqn:Hk; [done|]. cbn [dict_get].
    destruct (String.eqb_spec "Test" k) as [<-|_]; [congruence|done].
Qed.

Lemma readiness_table_test_key_overridden_witness :
  ∃ row,
    [PDict [("Test", PStr "other"); ("state", PBool true)]] !! 0 = Some (PDict row)
    ∧ dict_get "Test" row = Some (PStr "other")
    ∧ (∀ k, dict_get k row
            = dict_get k [("state", PBool true); ("Test", PStr "other")]).
Proof.
  refine (readiness_table_test_key_overridden
            [("ntp_sync", PDict [("state", PBool true); ("Test", PStr "other")])]
            [PDict [("Test", PStr "other"); ("state", PBool true)]]
            0 "ntp_sync" [("state", PBool true); ("Test", PStr "other")]
            (PStr "other") eq_refl eq_refl _ eq_refl).
  refine (bool_decide_unpack (NoDup (dict_keys _)) _). vm_compute. exact I.
Defined.

(** X17.  [convert_snapshot_result_to_table] never fails.  It makes a
    row for every result that is a dict and for no other: the row holds
    [test], the name of the comparison, and [passed], the value the
    result has under [passed], or [None] when it has none. *)
Theorem snapshot_table_rows results :
  let table := convert_snapshot_result_to_table results in
  length table = count_if (λ kv, is_dict kv.2) results
  ∧ (∀ key items,
       (key, PDict items) ∈ results →
       PDict [("test", PStr key);
              ("passed", default PNone (dict_get "passed" items))] ∈ table)
  ∧ (∀ row, row ∈ table →
       ∃ key items,
         (key, PDict items) ∈ results
         ∧ row = PDict [("test", PStr key);
                        ("passed", default PNone (dict_get "passed" items))]).
Proof.
  intros table. subst table. unfold convert_snapshot_result_to_table. split_and!.
  - induction results as [|[k v] results IH]; [done|].
    cbn [omap list_omap count_if]. fold (@omap list _ _ _ (λ kv : string * pyval,
      match kv.2 with
      | PDict items =>
          Some (PDict [("test", PStr kv.1);
                       ("passed", default PNone (dict_get "passed" items))])
      | _ => None
      end) results).
    destruct v; simpl; rewrite IH; done.
  - intros key items Hin. apply list_elem_of_omap. by exists (key, PDict items).
  - intros row Hrow. apply list_elem_of_omap in Hrow as ([key v] & Hin & Hrow).
    simpl in Hrow. destruct v; try discriminate Hrow. injection Hrow as <-. eauto.
Qed.

Lemma snapshot_table_rows_witness :
  ("nics", PDict [("passed", PBool false); ("count", PInt 2)])
    ∈ [("passed", PBool false);
       ("nics", PDict [("passed", PBool false); ("count", PInt 2)]);
       ("routes", PDict [("missing", PList [])])]
  ∧ convert_snapshot_result_to_table
      [("passed", PBool false);
       ("nics", PDict [("passed", PBool false); ("count", PInt 2)]);
       ("routes", PDict [("missing", PList [])])]
    = [PDict [("test", PStr "nics"); ("passed", PBool false)];
       PDict [("test", PStr "routes"); ("passed", PNone)]]
  ∧ PDict [("test", PStr "nics");
           ("passed", default PNone
                        (dict_get "passed" [("passed", PBool false); ("count", PInt 2)]))]
    ∈ convert_snapshot_result_to_table
        [("passed", PBool false);
         ("nics", PDict [("passed", PBool false); ("count", PInt 2)]);
         ("routes", PDict [("missing", PList [])])].
Proof.
  assert (("nics", PDict [("passed", PBool false); ("count", PInt 2)])
            ∈ [("passed", PBool false);
               ("nics", PDict [("passed", PBool false); ("count", PInt 2)]);
               ("routes", PDict [("missing", PList [])])]) as Hin
    by (right; left).
  split_and!; [exact Hin | reflexivity |].
  exact (proj1 (proj2 (snapshot_table_rows _)) _ _ Hin).
Defined.

(** ** command_run_readiness_checks: renaming and errors *)

Lemma py_in_cons x y l : py_in x (y :: l) = bool_decide (x = y) || py_in x l.
Proof.
  apply eq_true_iff_eq. rewrite orb_true_iff, !py_in_true, bool_decide_eq_true.
  apply elem_of_cons.
Qed.

Lemma elem_of_rename_check_inv old new l y :
  y ∈ rename_check old new l → y ∈ l ∨ (y = new ∧ old ∈ l).
Proof.
  unfold rename_check. destruct (py_in old l) eqn:Hold; [|by left].
  apply py_in_true in Hold. fold (remove_first old l).
  rewrite elem_of_app, list_elem_of_singleton. intros [Hin| ->]; [|by right].
  left. destruct (decide (y = old)) as [->|Hne]; [done|].
  by apply (elem_of_remove_first_ne old y l).
Qed.

Lemma arp_entry_exists_renamed_inv user_list :
  "arp_entry_exists" ∈ renamed_check_list user_list →
  "arp" ∈ user_list ∨ "arp_entry_exists" ∈ user_list.
Proof.
  unfold renamed_check_list. intros Hin.
  apply elem_of_rename_check_inv in Hin as [Hin|[_ Hin]].
  - apply elem_of_rename_check_inv in Hin as [Hin|[? _]]; [|done].
    apply elem_of_rename_check_inv in Hin as [Hin|[? _]]; [|done]. by right.
  - apply elem_of_rename_check_inv in Hin as [Hin|[? _]]; [|done].
    apply elem_of_rename_check_inv in Hin as [Hin|[? _]]; [|done]. by left.
Qed.

Lemma occurrences_rename_check old new l y :
  occurrences y (rename_check old new l)
  = occurrences y l
    - (if py_in old l && String.eqb old y then 1 else 0)
    + (if py_in old l && String.eqb new y then 1 else 0).
Proof.
  unfold rename_check. destruct (py_in old l) eqn:Hold; [|simpl; lia].
  fold (remove_first old l). rewrite occurrences_app, occurrences_singleton.
  cbn [andb]. destruct (String.eqb_spec old y) as [<-|Hne].
  - by rewrite occurrences_remove_first.
  - rewrite occurrences_remove_first_ne by done. lia.
Qed.

Lemma py_in_rename_check_other old new l y :
  y ≠ old → y ≠ new → py_in y (rename_check old new l) = py_in y l.
Proof.
  intros Hold Hnew. apply eq_true_iff_eq. rewrite !py_in_true. split.
  - intros [Hin|[? _]]%elem_of_rename_check_inv; done.
  - by apply elem_of_rename_check_other.
Qed.

(** How often an alias and how often an evaluator's name occur after
    lines 340-355. *)
Lemma occurrences_renamed_alias user_list y :
  y ∈ check_aliases →
  occurrences y (renamed_check_list user_list) = occurrences y user_list - 1.
Proof.
  intros Hy. unfold renamed_check_list, check_aliases in *.
  rewrite !occurrences_rename_check.
  rewrite !py_in_rename_check_other by done.
  destruct (py_in "dp_mp_clock_diff" user_list) eqn:H1;
    destruct (py_in "ipsec_tunnel" user_list) eqn:H2;
    destruct (py_in "arp" user_list) eqn:H3;
    try (apply py_in_false, occurrences_zero in H1);
    try (apply py_in_false, occurrences_zero in H2);
    try (apply py_in_false, occurrences_zero in H3);
    repeat (apply elem_of_cons in Hy as [->|Hy]; [simpl; lia|]);
    by apply elem_of_nil in Hy.
Qed.

Lemma occurrences_renamed_name user_list alias name :
  (alias, name) ∈ [("dp_mp_clock_diff", "planes_clock_sync");
                   ("ipsec_tunnel", "ip_sec_tunnel_status");
                   ("arp", "arp_entry_exists")] →
  alias ∈ user_list →
  occurrences name (renamed_check_list user_list) = occurrences name user_list + 1.
Proof.
  intros Hpair Hin. apply py_in_true in Hin.
  unfold renamed_check_list. rewrite !occurrences_rename_check.
  rewrite !py_in_rename_check_other by done.
  repeat (apply elem_of_cons in Hpair as [[= -> ->]|Hpair];
          [rewrite Hin; simpl; rewrite ?andb_false_r; simpl; lia|]).
  by apply elem_of_nil in Hpair.
Qed.

Section CommandErrors.
Variable argToList : option string → list string.
Variable arg_to_number : option string → result (option Z).
Variable is_ip_valid : string → bool.

Local Abbreviation command :=
  (command_run_readiness_checks argToList arg_to_number is_ip_valid).

Lemma command_Ok_inv firewall args out :
  command firewall args = Ok out →
  ∃ n, directives (keyword_args args n)
         (working_list firewall
            (Some (renamed_check_list (argToList (args !! "check_list")))))
       = Ok out.
Proof.
  intros Hout.
  destruct (command_Ok_passed _ _ _ _ _ _ Hout) as (serial & n & Hserial & Hnum).
  rewrite (command_spec _ _ _ _ _ _ _ Hserial Hnum) in Hout. cbv zeta in Hout.
  exists n. by repeat case_match.
Qed.

(** Where binding fails, some first key cannot be bound. *)
Lemma first_unbound_keyword (keywords : gset string)
    (kwargs : list (string * string)) :
  ¬ dom kwargs ⊆ keywords →
  ∃ before k v after,
    kwargs = before ++ (k, v) :: after ∧ dom before ⊆ keywords ∧ k ∉ keywords.
Proof.
  induction kwargs as [|[k v] kwargs IH]; intros Hdom.
  - destruct Hdom. intros k []%not_elem_of_empty.
  - destruct (decide (k ∈ keywords)) as [Hk|Hk].
    + destruct IH as (before & k' & v' & after & -> & Hbefore & Hk').
      { intros Hsub. apply Hdom. rewrite args_dom_cons.
        intros k' [->%elem_of_singleton|?]%elem_of_union; [done|by apply Hsub]. }
      exists ((k, v) :: before), k', v', after. split_and!; [done| |done].
      rewrite args_dom_cons.
      intros k0 [->%elem_of_singleton|?]%elem_of_union; [done|by apply Hbefore].
    + exists [], k, v, kwargs. split_and!; [done| |done].
      intros k0 []%not_elem_of_empty.
Qed.

(** X18.  The command reports its first failure only, in this order: a
    missing [firewall_serial] ([KeyError]), a [dp_mp_clock_diff] that is
    no number (the error of [arg_to_number]), an ARP entry that is not a
    valid address ([ValueError]), an argument that is no keyword of
    [run_readiness_checks] ([TypeError]).  Each is raised whatever is
    wrong further down the list.  The [TypeError] names the first of the
    remaining arguments, in the order of the dict, that is no free
    keyword: [firewall], which the call gives by position, has "multiple
    values", any other is "unexpected"; and whenever some remaining
    argument is no free keyword there is such a first one. *)
Theorem command_errors_in_order firewall args :
  (args !! "firewall_serial" = None →
   command firewall args = Raise (KeyError "firewall_serial"))
  ∧ (∀ e, is_Some (args !! "firewall_serial") →
          arg_to_number (args !! "dp_mp_clock_diff") = Raise e →
          command firewall args = Raise e)
  ∧ (∀ n v, is_Some (args !! "firewall_serial") →
            arg_to_number (args !! "dp_mp_clock_diff") = Ok n →
            args !! "arp_entry_exists" = Some v → v ≠ EmptyString →
            is_ip_valid v = false →
            command firewall args
            = Raise (ValueError (v +:+ " is not a valid IPv4 address.")))
  ∧ (∀ n before k v after,
        is_Some (args !! "firewall_serial") →
        arg_to_number (args !! "dp_mp_clock_diff") = Ok n →
        (∀ v, args !! "arp_entry_exists" = Some v → v ≠ EmptyString →
              is_ip_valid v = true) →
        remaining_args args = before ++ (k, v) :: after →
        dom before ⊆ readiness_keywords → k ∉ readiness_keywords →
        command firewall args
        = Raise (TypeError
                   ("run_readiness_checks"
                    +:+ (if py_in k ["firewall"; "check_list"]
                         then "() got multiple values for argument '"
                         else "() got an unexpected keyword argument '")
                    +:+ k +:+ "'")))
  ∧ (¬ dom (remaining_args args) ⊆ readiness_keywords →
     ∃ before k v after,
       remaining_args args = before ++ (k, v) :: after
       ∧ dom before ⊆ readiness_keywords ∧ k ∉ readiness_keywords).
Proof.
  split_and!.
  - intros Hserial. unfold command_run_readiness_checks. by rewrite Hserial.
  - intros e [serial Hserial] Hnum. unfold command_run_readiness_checks.
    rewrite Hserial. rewrite !args_lookup_delete_ne by done. by rewrite Hnum.
  - intros n v [serial Hserial] Hnum Harp Hne Hinvalid.
    rewrite (command_spec _ _ _ _ _ _ _ Hserial Hnum), Harp. cbv zeta.
    destruct v as [|c v]; [done|]. by rewrite Hinvalid.
  - intros n before k v after [serial Hserial] Hnum Hvalid Hsplit Hbefore Hk.
    rewrite (command_spec _ _ _ _ _ _ _ Hserial Hnum). cbv zeta.
    rewrite Hsplit.
    rewrite (keyword_error_first _ _ _ _ _ _ _ readiness_given_not_keywords
               Hbefore Hk).
    destruct (args !! "arp_entry_exists") as [[|c w]|] eqn:Harp; try done.
    by rewrite (Hvalid _ eq_refl ltac:(done)).
  - apply first_unbound_keyword.
Qed.

(** X19.  The ARP entry is validated whether or not the ARP check is
    asked for, but it is used only when it is: if the check list names
    neither [arp] nor [arp_entry_exists], no output of the command holds
    an [arp_entry_exist] directive. *)
Theorem arp_entry_unused_without_check firewall args out :
  "arp" ∉ argToList (args !! "check_list") →
  "arp_entry_exists" ∉ argToList (args !! "check_list") →
  command_run_readiness_checks argToList arg_to_number is_ip_valid firewall args
  = Ok out →
  count_if (is_parameterized "arp_entry_exist") out = 0
  ∧ ∀ o, PDict [("arp_entry_exist", o)] ∉ out.
Proof.
  intros Harp Haee Hout. apply command_Ok_inv in Hout as [n Hout].
  pose proof (count_parameterized_arp_entry_exist _ _ _ Hout) as Hcount.
  assert (py_in "arp_entry_exists"
            (working_list firewall
               (Some (renamed_check_list (argToList (args !! "check_list")))))
          = false) as Hin.
  { apply py_in_false. unfold working_list.
    destruct (renamed_check_list (argToList (args !! "check_list")))
      as [|x cl] eqn:Hrenamed; cbn [is_empty_arg default].
    - apply occurrences_zero. by apply occurrences_default_check_list,
        py_in_false.
    - unfold id. rewrite <- Hrenamed.
      intros [?|?]%arp_entry_exists_renamed_inv; done. }
  rewrite Hin in Hcount. cbn [andb] in Hcount. split; [done|].
  intros o Ho. apply (count_if_pos (is_parameterized "arp_entry_exist")) in Ho;
    [|reflexivity]. rewrite Hcount in Ho. lia.
Qed.

(** X20.  A check named both by its alias and by the evaluator's name
    is run twice over: the alias is renamed, one bare name is converted,
    and the other stays in the output as a bare identifier. *)
Theorem alias_and_name_leave_bare_check firewall args out alias name :
  (alias, name) ∈ [("dp_mp_clock_diff", "planes_clock_sync");
                   ("ipsec_tunnel", "ip_sec_tunnel_status");
                   ("arp", "arp_entry_exists")] →
  alias ∈ argToList (args !! "check_list") →
  name ∈ argToList (args !! "check_list") →
  command_run_readiness_checks argToList arg_to_number is_ip_valid firewall args
  = Ok out →
  PStr name ∈ out.
Proof.
  intros Hpair Halias Hname Hout. apply command_Ok_inv in Hout as [n Hout].
  pose proof (occurrences_renamed_name _ _ _ Hpair Halias) as Hocc.
  apply occurrences_pos in Hname.
  assert (working_list firewall
            (Some (renamed_check_list (argToList (args !! "check_list"))))
          = renamed_check_list (argToList (args !! "check_list"))) as Hwork.
  { unfold working_list.
    destruct (renamed_check_list (argToList (args !! "check_list"))); [|done].
    unfold occurrences in Hocc. simpl in Hocc. lia. }
  rewrite Hwork in Hout. apply bare_elem_of.
  rewrite (count_bare_directives _ _ _ _ Hout).
  rewrite occurrences_bare_checks_removed; [lia|].
  repeat (apply elem_of_cons in Hpair as [[= -> ->]|Hpair];
          [apply py_in_true; reflexivity|]).
  by apply elem_of_nil in Hpair.
Qed.

(** X21.  The aliases are taken out once: the output of the command
    holds one bare [dp_mp_clock_diff], [ipsec_tunnel] or [arp] fewer than
    the user's check list, so an alias named once never reaches the
    evaluator, and one named twice does. *)
Theorem alias_removed_once firewall args out alias :
  alias ∈ check_aliases →
  command_run_readiness_checks argToList arg_to_number is_ip_valid firewall args
  = Ok out →
  count_if (is_bare alias) out
  = occurrences alias (argToList (args !! "check_list")) - 1.
Proof.
  intros Halias Hout. apply command_Ok_inv in Hout as [n Hout].
  rewrite (count_bare_directives _ _ _ _ Hout).
  assert ((alias ∉ ["panorama"; "ntp_sync"; "candidate_config"; "active_support";
                    "ha"])
          ∧ alias ∉ handled_identifiers) as [Hdef Hhandled].
  { unfold check_aliases in Halias.
    repeat (apply elem_of_cons in Halias as [->|Halias];
            [split; apply py_in_false; reflexivity|]).
    by apply elem_of_nil in Halias. }
  assert (∀ x, x ∈ handled_identifiers → alias ≠ x) as Hne
    by (intros x Hx ->; done).
  rewrite occurrences_bare_checks, occurrences_after_free_disk_space;
    try (apply Hne, py_in_true; reflexivity).
  rewrite occurrences_working_list by done. cbn [default]. unfold id.
  rewrite occurrences_renamed_alias by done.
  destruct (String.eqb_spec "content_version" alias) as [<-|_];
    [exfalso; apply Hhandled, py_in_true; reflexivity|].
  destruct (String.eqb_spec "free_disk_space" alias) as [<-|_];
    [exfalso; apply Hhandled, py_in_true; reflexivity|].
  rewrite !andb_false_r. simpl. lia.
Qed.
End CommandErrors.

Lemma command_errors_in_order_witness :
  args_unexpected !! "firewall_serial" = Some "0123"
  ∧ remaining_args args_unexpected
    = [("check_session_exists", "10.10.10.10")]
      ++ ("snapshot_name", "before") :: [("firewall", "fw-1")]
  ∧ command_run_readiness_checks argToList_csv arg_to_number_decimal
      is_ip_valid_dotted fw_standalone args_unexpected
    = Raise (TypeError
               "run_readiness_checks() got an unexpected keyword argument 'snapshot_name'")
  ∧ command_run_readiness_checks argToList_csv arg_to_number_decimal
      is_ip_valid_dotted fw_standalone
      [("firewall_serial", "0123"); ("firewall", "fw-1"); ("snapshot_name", "before")]
    = Raise (TypeError
               "run_readiness_checks() got multiple values for argument 'firewall'").
Proof.
  split_and!; [reflexivity | reflexivity | |].
  - refine (proj1 (proj2 (proj2 (proj2 (command_errors_in_order argToList_csv
                                          arg_to_number_decimal is_ip_valid_dotted
                                          fw_standalone args_unexpected))))
              None [("check_session_exists", "10.10.10.10")] "snapshot_name"
              "before" [("firewall", "fw-1")]
              ltac:(eexists; reflexivity) eq_refl _ eq_refl _ _).
    + intros v Hv. vm_compute in Hv. discriminate Hv.
    + refine (bool_decide_unpack
                (dom [("check_session_exists", "10.10.10.10")]
                 ⊆ readiness_keywords) _).
      vm_compute. exact I.
    + refine (bool_decide_eq_false_1 ("snapshot_name" ∈ readiness_keywords) _).
      vm_compute. reflexivity.
  - refine (proj1 (proj2 (proj2 (proj2 (command_errors_in_order argToList_csv
                                          arg_to_number_decimal is_ip_valid_dotted
                                          fw_standalone
                                          [("firewall_serial", "0123");
                                           ("firewall", "fw-1");
                                           ("snapshot_name", "before")]))))
              None [] "firewall" "fw-1" [("snapshot_name", "before")]
              ltac:(eexists; reflexivity) eq_refl _ eq_refl _ _).
    + intros v Hv. vm_compute in Hv. discriminate Hv.
    + intros k Hk. by apply not_elem_of_empty in Hk.
    + refine (bool_decide_eq_false_1 ("firewall" ∈ readiness_keywords) _).
      vm_compute. reflexivity.
Defined.

Lemma arp_entry_unused_without_check_witness :
  ("arp" ∉ argToList_csv (args_arp "ntp_sync" "10.0.0.6" !! "check_list"))
  ∧ command_run_readiness_checks argToList_csv arg_to_number_decimal
      is_ip_valid_dotted fw_standalone (args_arp "ntp_sync" "10.0.0.6")
    = Ok [PStr "ntp_sync"; PStr "free_disk_space"]
  ∧ count_if (is_parameterized "arp_entry_exist")
      [PStr "ntp_sync"; PStr "free_disk_space"] = 0.
Proof.
  assert ("arp" ∉ argToList_csv (args_arp "ntp_sync" "10.0.0.6" !! "check_list"))
    as Harp by (apply py_in_false; reflexivity).
  assert ("arp_entry_exists"
            ∉ argToList_csv (args_arp "ntp_sync" "10.0.0.6" !! "check_list"))
    as Haee by (apply py_in_false; reflexivity).
  split_and!; [exact Harp | reflexivity |].
  exact (proj1 (arp_entry_unused_without_check argToList_csv arg_to_number_decimal
                  is_ip_valid_dotted fw_standalone (args_arp "ntp_sync" "10.0.0.6")
                  _ Harp Haee eq_refl)).
Defined.

Lemma alias_and_name_leave_bare_check_witness :
  command_run_readiness_checks argToList_csv arg_to_number_decimal
    is_ip_valid_dotted fw_standalone
    (args_check_list "dp_mp_clock_diff,planes_clock_sync")
  = Ok [PStr "planes_clock_sync"; PStr "free_disk_space"]
  ∧ PStr "planes_clock_sync" ∈ [PStr "planes_clock_sync"; PStr "free_disk_space"].
Proof.
  split; [reflexivity|].
  refine (alias_and_name_leave_bare_check argToList_csv arg_to_number_decimal
            is_ip_valid_dotted fw_standalone
            (args_check_list "dp_mp_clock_diff,planes_clock_sync") _
            "dp_mp_clock_diff" "planes_clock_sync" _ _ _ eq_refl).
  - by left.
  - apply py_in_true. reflexivity.
  - apply py_in_true. reflexivity.
Defined.

Lemma alias_removed_once_witness :
  command_run_readiness_checks argToList_csv arg_to_number_decimal
    is_ip_valid_dotted fw_standalone (args_check_list "arp,ntp_sync,arp")
  = Ok [PStr "ntp_sync"; PStr "arp"; PStr "free_disk_space"]
  ∧ count_if (is_bare "arp") [PStr "ntp_sync"; PStr "arp"; PStr "free_disk_space"]
    = occurrences "arp"
        (argToList_csv (args_check_list "arp,ntp_sync,arp" !! "check_list")) - 1.
Proof.
  split; [reflexivity|].
  refine (alias_removed_once argToList_csv arg_to_number_decimal
            is_ip_valid_dotted fw_standalone (args_check_list "arp,ntp_sync,arp")
            _ "arp" _ eq_refl).
  apply py_in_true. reflexivity.
Defined.

(** ** command_run_snapshot *)

Lemma command_run_snapshot_spec argToList firewall args serial :
  args !! "firewall_serial" = Some serial →
  command_run_snapshot argToList firewall args
  = match keyword_error "run_snapshot" ["firewall"; "snapshot_list"] ∅
            (snapshot_kwargs args) with
    | Some e => Raise e
    | None =>
        Ok (default "fw_snapshot" (args !! "snapshot_name"),
            snapshot_working_list (Some (argToList (args !! "check_list"))))
    end.
Proof.
  intros Hserial. unfold command_run_snapshot, snapshot_kwargs. rewrite Hserial.
  rewrite run_snapshot_working_list.
  unfold deref. cbn [mbind option_bind]. rewrite lookup_singleton_eq.
  rewrite (args_lookup_delete_ne "firewall_serial" "snapshot_name") by done.
  destruct (truthy (args !! "snapshot_name"));
    by rewrite !args_lookup_delete_ne by done.
Qed.

Lemma snapshot_kwargs_dom k args :
  k ∈ dom (snapshot_kwargs args)
  ↔ k ∈ dom args ∧ k ≠ "firewall_serial" ∧ k ≠ "check_list"
    ∧ (k = "snapshot_name" → truthy (args !! "snapshot_name") = false).
Proof.
  unfold snapshot_kwargs.
  rewrite (args_lookup_delete_ne "firewall_serial" "snapshot_name") by done.
  destruct (truthy (args !! "snapshot_name")) eqn:Htruthy;
    rewrite !args_elem_of_dom_delete.
  - split; [intros [[[? ?] ?] ?]; by split_and!|].
    intros (? & ? & ? & Hname). split_and!; try done. intros ->. by discriminate Hname.
  - split; [intros [[? ?] ?]; by split_and!|]. by intros (? & ? & ? & _).
Qed.

(** Nothing is left for [run_snapshot] to reject exactly when the dict
    held the three arguments of the command at most, and no empty name. *)
Lemma snapshot_kwargs_bound args :
  keyword_error "run_snapshot" ["firewall"; "snapshot_list"] ∅ (snapshot_kwargs args)
  = None
  ↔ dom args ⊆ {[ "firewall_serial"; "snapshot_name"; "check_list" ]}
    ∧ args !! "snapshot_name" ≠ Some EmptyString.
Proof.
  rewrite keyword_error_None by (intros k _; apply not_elem_of_empty). split.
  - intros Hsub. split.
    + intros k Hk.
      destruct (decide (k = "firewall_serial")) as [->|Hfs];
        [by apply elem_of_union_l, elem_of_union_l, elem_of_singleton|].
      destruct (decide (k = "snapshot_name")) as [->|Hsn];
        [by apply elem_of_union_l, elem_of_union_r, elem_of_singleton|].
      destruct (decide (k = "check_list")) as [->|Hcl];
        [by apply elem_of_union_r, elem_of_singleton|].
      exfalso. apply (not_elem_of_empty (C:=gset string) k), Hsub.
      by apply snapshot_kwargs_dom.
    + intros Hname.
      apply (not_elem_of_empty (C:=gset string) "snapshot_name"), Hsub.
      apply snapshot_kwargs_dom. split_and!; try done.
      * apply args_elem_of_dom. by rewrite Hname.
      * intros _. by rewrite Hname.
  - intros [Hdom Hname] k (Hk & Hfs & Hcl & Htruthy)%snapshot_kwargs_dom.
    exfalso. pose proof (Hdom k Hk) as Hthree.
    rewrite !elem_of_union, !elem_of_singleton in Hthree.
    destruct Hthree as [[->| ->]| ->]; try done.
    apply args_elem_of_dom in Hk as [[|c v] Hv]; [done|].
    specialize (Htruthy eq_refl). by rewrite Hv in Htruthy.
Qed.

(** X22.  [command_run_snapshot] returns exactly when [firewall_serial]
    is given, no argument besides [firewall_serial], [check_list] and
    [snapshot_name] is, and [snapshot_name] is not the empty string.  The
    file is then named by [snapshot_name], or [fw_snapshot] without it,
    and the evaluator gets the check list, or the default list when that
    is empty.  Whatever else is left in the dict reaches [run_snapshot],
    which has no keyword to bind it to: the [TypeError] names the first
    argument left, in the order of the dict, as one with "multiple
    values" when it is [firewall] or [snapshot_list] and as "unexpected"
    otherwise.  An empty [snapshot_name] is not deleted, so with no other
    argument left it is the one named. *)
Theorem command_run_snapshot_returns argToList firewall args name snapshot_list :
  (command_run_snapshot argToList firewall args = Ok (name, snapshot_list)
   ↔ is_Some (args !! "firewall_serial")
     ∧ dom args ⊆ {[ "firewall_serial"; "snapshot_name"; "check_list" ]}
     ∧ args !! "snapshot_name" ≠ Some EmptyString
     ∧ name = default "fw_snapshot" (args !! "snapshot_name")
     ∧ snapshot_list
       = snapshot_working_list (Some (argToList (args !! "check_list"))))
  ∧ (∀ k v rest,
       is_Some (args !! "firewall_serial") →
       snapshot_kwargs args = (k, v) :: rest →
       command_run_snapshot argToList firewall args
       = Raise (TypeError
                  ("run_snapshot"
                   +:+ (if py_in k ["firewall"; "snapshot_list"]
                        then "() got multiple values for argument '"
                        else "() got an unexpected keyword argument '")
                   +:+ k +:+ "'")))
  ∧ (is_Some (args !! "firewall_serial") →
     args !! "snapshot_name" = Some EmptyString →
     dom args ⊆ {[ "firewall_serial"; "snapshot_name"; "check_list" ]} →
     command_run_snapshot argToList firewall args
     = Raise (TypeError
                "run_snapshot() got an unexpected keyword argument 'snapshot_name'")).
Proof.
  assert (∀ k v rest,
            is_Some (args !! "firewall_serial") →
            snapshot_kwargs args = (k, v) :: rest →
            command_run_snapshot argToList firewall args
            = Raise (TypeError
                       ("run_snapshot"
                        +:+ (if py_in k ["firewall"; "snapshot_list"]
                             then "() got multiple values for argument '"
                             else "() got an unexpected keyword argument '")
                        +:+ k +:+ "'"))) as Hfirst.
  { intros k v rest [serial Hserial] Hleft.
    rewrite (command_run_snapshot_spec _ _ _ _ Hserial), Hleft.
    change ((k, v) :: rest) with ([] ++ (k, v) :: rest).
    rewrite keyword_error_first; [done| | |].
    + intros k' _. apply not_elem_of_empty.
    + intros k' Hk'. by apply not_elem_of_empty in Hk'.
    + apply not_elem_of_empty. }
  split_and!.
  - destruct (args !! "firewall_serial") as [serial|] eqn:Hserial.
    + rewrite (command_run_snapshot_spec _ _ _ _ Hserial).
      pose proof (snapshot_kwargs_bound args) as Hbound.
      destruct (keyword_error _ _ _ _) as [e|].
      * split; [done|]. intros (_ & Hdom & Hname & _).
        discriminate (proj2 Hbound (conj Hdom Hname)).
      * destruct (proj1 Hbound eq_refl) as [Hdom Hname]. split.
        -- intros [= <- <-]. split_and!; try done; eauto.
        -- by intros (_ & _ & _ & -> & ->).
    + unfold command_run_snapshot. rewrite Hserial.
      split; [done|]. by intros ([? ?] & _).
  - exact Hfirst.
  - intros Hserial Hname Hdom.
    destruct (snapshot_kwargs args) as [|[k v] rest] eqn:Hleft.
    + exfalso.
      assert ("snapshot_name" ∈ dom (snapshot_kwargs args)) as Hin.
      { apply snapshot_kwargs_dom. split_and!; try done.
        - apply args_elem_of_dom. by rewrite Hname.
        - intros _. by rewrite Hname. }
      rewrite Hleft in Hin. by apply not_elem_of_empty in Hin.
    + assert (k = "snapshot_name") as ->.
      { assert (k ∈ dom (snapshot_kwargs args)) as Hin.
        { rewrite Hleft, args_dom_cons. by apply elem_of_union_l, elem_of_singleton. }
        apply snapshot_kwargs_dom in Hin as (Hk & Hfs & Hcl & _).
        apply Hdom in Hk. rewrite !elem_of_union, !elem_of_singleton in Hk.
        by destruct Hk as [[?|?]|?]. }
      exact (Hfirst _ _ _ Hserial eq_refl).
Qed.

Lemma command_run_snapshot_returns_witness :
  command_run_snapshot argToList_csv fw_standalone
    [("firewall_serial", "0123"); ("check_list", "routes,unknown")]
  = Ok ("fw_snapshot", ["routes"; "unknown"])
  ∧ command_run_snapshot argToList_csv fw_standalone
      [("firewall_serial", "0123"); ("snapshot_name", EmptyString)]
    = Raise (TypeError
               "run_snapshot() got an unexpected keyword argument 'snapshot_name'")
  ∧ command_run_snapshot argToList_csv fw_standalone
      [("firewall_serial", "0123"); ("snapshot_name", "before");
       ("firewall", "fw-1"); ("verbose", "true")]
    = Raise (TypeError "run_snapshot() got multiple values for argument 'firewall'").
Proof.
  split_and!.
  - refine (proj2 (proj1 (command_run_snapshot_returns argToList_csv fw_standalone
                            [("firewall_serial", "0123");
                             ("check_list", "routes,unknown")]
                            "fw_snapshot" ["routes"; "unknown"])) _).
    split_and!; [by eexists| |discriminate|reflexivity|reflexivity].
    refine (bool_decide_unpack
              (dom [("firewall_serial", "0123"); ("check_list", "routes,unknown")]
               ⊆@{gset string} {[ "firewall_serial"; "snapshot_name"; "check_list" ]})
              _).
    vm_compute. exact I.
  - refine (proj2 (proj2 (command_run_snapshot_returns argToList_csv fw_standalone
                            [("firewall_serial", "0123");
                             ("snapshot_name", EmptyString)]
                            EmptyString []))
              ltac:(eexists; reflexivity) eq_refl _).
    refine (bool_decide_unpack
              (dom [("firewall_serial", "0123"); ("snapshot_name", EmptyString)]
               ⊆@{gset string} {[ "firewall_serial"; "snapshot_name"; "check_list" ]})
              _).
    vm_compute. exact I.
  - exact (proj1 (proj2 (command_run_snapshot_returns argToList_csv fw_standalone
                           [("firewall_serial", "0123"); ("snapshot_name", "before");
                            ("firewall", "fw-1"); ("verbose", "true")]
                           EmptyString []))
             "firewall" "fw-1" [("verbose", "true")]
             ltac:(eexists; reflexivity) eq_refl).
Defined.

(** ** main *)

(** X23.  The API key of line 429 comes from the credentials only when
    [key] is present and empty.  Without [key], [str(None)] gives the
    key [None] and the credentials are never read; a [key] that is not
    empty is used as it is. *)
Theorem api_key_falls_back_only_on_empty_key credentials :
  main_api_key None credentials = "None"
  ∧ (∀ key, key ≠ EmptyString → main_api_key (Some key) credentials = key)
  ∧ main_api_key (Some EmptyString) credentials
    = default EmptyString (credentials ≫= (.!! "password")).
Proof.
  split_and!.
  - done.
  - intros [|c key] Hne; done.
  - unfold main_api_key. destruct credentials as [c|]; simpl; [|done].
    case_bool_decide as Hc; [|done]. by rewrite Hc.
Qed.

Lemma api_key_falls_back_only_on_empty_key_witness :
  main_api_key (Some "LUFRPT1") (Some {[ "password" := "secret" ]}) = "LUFRPT1"
  ∧ main_api_key None (Some {[ "password" := "secret" ]}) = "None"
  ∧ main_api_key (Some EmptyString) (Some {[ "password" := "secret" ]}) = "secret".
Proof.
  destruct (api_key_falls_back_only_on_empty_key (Some {[ "password" := "secret" ]}))
    as (Hnone & Hkey & Hempty).
  split_and!; [exact (Hkey "LUFRPT1" ltac:(discriminate)) | exact Hnone | exact Hempty].
Defined.

(** ** Runs of the properties without a premise *)

Lemma parse_session_accepts_two_slashes_witness :
  count_char "/" "10.10.10.10//" = 2
  ∧ ∃ v, parse_session "10.10.10.10//" = Ok v.
Proof.
  split; [reflexivity|].
  exact (proj2 (parse_session_accepts_two_slashes "10.10.10.10//") eq_refl).
Defined.

Lemma bgp_peers_only_on_request_witness :
  (∃ cl, deref (one_list ["bgp_peers"; "nics"]) (Some 1%positive) = Some cl
         ∧ "bgp_peers" ∈ cl)
  ∧ PDict [("bgp_peers", PDict [("properties", PList [PStr "status"])])]
    ∈ compare_snapshots PNone PNone (Some 1%positive) PNone
        (one_list ["bgp_peers"; "nics"]).
Proof.
  assert (∃ cl, deref (one_list ["bgp_peers"; "nics"]) (Some 1%positive) = Some cl
                ∧ "bgp_peers" ∈ cl) as Hcl.
  { exists ["bgp_peers"; "nics"]. split; [reflexivity|by left]. }
  split; [exact Hcl|].
  exact (proj2 (bgp_peers_only_on_request PNone PNone (Some 1%positive) PNone
                  (one_list ["bgp_peers"; "nics"])) Hcl).
Defined.

Lemma readiness_table_needs_dicts_witness :
  convert_readiness_results_to_table
    [("ntp_sync", PDict [("state", PBool true)]); ("panorama", PStr "skipped")]
  = Raise (TypeError "'str' object is not a mapping")
  ∧ ∃ key v,
      (key, v) ∈ [("ntp_sync", PDict [("state", PBool true)]);
                  ("panorama", PStr "skipped")]
      ∧ is_dict v = false
      ∧ TypeError "'str' object is not a mapping"
        = TypeError ("'" +:+ type_name v +:+ "' object is not a mapping").
Proof.
  split; [reflexivity|].
  exact (proj2 (readiness_table_needs_dicts
                  [("ntp_sync", PDict [("state", PBool true)]);
                   ("panorama", PStr "skipped")]) _ eq_refl).
Defined.
